(** * The notify entity platform: a shallow embedding of
      [homeassistant/components/notify/__init__.py]

    The development follows the source file top to bottom: Python values and
    exceptions, the UTC timestamp and its ISO rendering, the [NotifyEntity]
    object with its two cached properties, the coroutines that dispatch a
    message, and finally the service layer in front of them.  The other
    schemas and the persistent-notification handler of the module follow,
    and then the Ender integration: [ender/ender_connector.py] and
    [ender/config_flow.py]. *)

From Stdlib Require Import String Ascii List ZArith Lia Bool.
From stdpp Require Import base option gmap strings list.

Local Open Scope string_scope.
Local Open Scope list_scope.
Set Warnings "-register-all".

(** ** Python values and exceptions *)

(** The values that travel through a service call. *)
Inductive pyval : Type :=
| VNone
| VBool (b : bool)
| VInt (z : Z)
| VStr (s : string)
| VList (l : list pyval)
| VDict (d : list (string * pyval)).

(** The exceptions the modelled code can raise.  [TargetError] stands for
    whatever a concrete notifier raises from its own transport. *)
Inductive exn : Type :=
| NotImplementedError
| TypeError
| Invalid
| TargetNotFound
| TargetError (msg : string).

(** Result of a call: a normal return or a raised exception. *)
Inductive outcome (A : Type) : Type :=
| Ok (a : A)
| Err (e : exn).
Arguments Ok {A} a.
Arguments Err {A} e.

Definition is_str (v : pyval) : bool :=
  match v with VStr _ => true | _ => false end.

Definition is_dict (v : pyval) : bool :=
  match v with VDict _ => true | _ => false end.

(** ** Timestamps: [dt_util.utcnow().isoformat()] *)

Module dt_util.

(** A timezone-aware UTC [datetime]. *)
Record datetime : Type := mk_datetime {
  dt_year : Z;
  dt_month : Z;
  dt_day : Z;
  dt_hour : Z;
  dt_minute : Z;
  dt_second : Z;
  dt_microsecond : Z
}.

(** The field ranges of Python's [datetime]. *)
Definition valid (d : datetime) : Prop :=
  (1 <= dt_year d <= 9999 /\ 1 <= dt_month d <= 12 /\ 1 <= dt_day d <= 31 /\
   0 <= dt_hour d < 24 /\ 0 <= dt_minute d < 60 /\ 0 <= dt_second d < 60 /\
   0 <= dt_microsecond d < 1000000)%Z.

(** Lexicographic combination of comparisons. *)
Definition lex (c1 c2 : comparison) : comparison :=
  match c1 with Eq => c2 | _ => c1 end.

(** Chronological comparison of two UTC datetimes. *)
Definition compare (a b : datetime) : comparison :=
  lex (dt_year a ?= dt_year b)%Z
 (lex (dt_month a ?= dt_month b)%Z
 (lex (dt_day a ?= dt_day b)%Z
 (lex (dt_hour a ?= dt_hour b)%Z
 (lex (dt_minute a ?= dt_minute b)%Z
 (lex (dt_second a ?= dt_second b)%Z
      (dt_microsecond a ?= dt_microsecond b)%Z))))).

(** [a] is not later than [b]. *)
Definition le (a b : datetime) : Prop := compare a b <> Gt.

Definition digit (n : Z) : ascii := ascii_of_N (Z.to_N (48 + n mod 10)).

(** ["%0wd" % n]: the [w] low decimal digits of [n]. *)
Fixpoint pad (w : nat) (n : Z) : string :=
  match w with
  | 0 => ""
  | S w' => pad w' (n / 10) +:+ String (digit n) ""
  end.

(** The fractional part is printed only when it is not zero. *)
Definition frac (us : Z) : string :=
  if (us =? 0)%Z then "" else "." +:+ pad 6 us.

(** [datetime.isoformat()] of an aware UTC datetime. *)
Definition isoformat (d : datetime) : string :=
  pad 4 (dt_year d) +:+ "-" +:+ pad 2 (dt_month d) +:+ "-" +:+ pad 2 (dt_day d)
  +:+ "T" +:+ pad 2 (dt_hour d) +:+ ":" +:+ pad 2 (dt_minute d) +:+ ":"
  +:+ pad 2 (dt_second d) +:+ frac (dt_microsecond d) +:+ "+00:00".

End dt_util.

(** ** The entity object *)

(** [NotifyDeviceClass], a [StrEnum] with one member. *)
Inductive NotifyDeviceClass : Type := MESSAGE_NOTIFIER.

Global Instance NotifyDeviceClass_eq_dec : EqDecision NotifyDeviceClass.
Proof. solve_decision. Defined.

(** [NotifyEntityDescription]: the one field the class adds, defaulting to
    [None]. *)
Record NotifyEntityDescription : Type := mk_description {
  description_device_class : option NotifyDeviceClass
}.

(** The attributes of a [NotifyEntity] instance.  An attribute that may be
    missing from the object ([hasattr] is false) is an [option]; the two
    [cache_] fields are the instance-dictionary slots that [cached_property]
    fills for [device_class] and [state]. *)
Record NotifyEntity : Type := mk_entity {
  _attr_device_class : option (option NotifyDeviceClass);
  entity_description : option NotifyEntityDescription;
  __last_notified_isoformat : option string;
  cache_device_class : option (option NotifyDeviceClass);
  cache_state : option (option string)
}.

(** A freshly constructed entity: the class-level defaults
    [__last_notified_isoformat = None] and empty property caches; the two
    device-class sources are whatever the subclass sets up. *)
Definition new_entity (attr : option (option NotifyDeviceClass))
    (desc : option NotifyEntityDescription) : NotifyEntity :=
  mk_entity attr desc None None None.

Definition with_cache_device_class (c : option (option NotifyDeviceClass))
    (self : NotifyEntity) : NotifyEntity :=
  mk_entity (_attr_device_class self) (entity_description self)
    (__last_notified_isoformat self) c (cache_state self).

Definition with_cache_state (c : option (option string))
    (self : NotifyEntity) : NotifyEntity :=
  mk_entity (_attr_device_class self) (entity_description self)
    (__last_notified_isoformat self) (cache_device_class self) c.

Definition with_last_notified (s : option string)
    (self : NotifyEntity) : NotifyEntity :=
  mk_entity (_attr_device_class self) (entity_description self)
    s (cache_device_class self) (cache_state self).

(** [functools.cached_property]: return the value stored in the instance
    slot when there is one; otherwise run the wrapped function once, store
    its result in the slot and return it. *)
Definition cached_property {A : Type}
    (slot : NotifyEntity -> option A)
    (fill : option A -> NotifyEntity -> NotifyEntity)
    (func : NotifyEntity -> A)
    (self : NotifyEntity) : A * NotifyEntity :=
  match slot self with
  | Some v => (v, self)
  | None => let v := func self in (v, fill (Some v) self)
  end.

(** Body of the [device_class] property. *)
Definition device_class_body (self : NotifyEntity) : option NotifyDeviceClass :=
  match _attr_device_class self with
  | Some v => v
  | None =>
      match entity_description self with
      | Some d => description_device_class d
      | None => None
      end
  end.

(** [NotifyEntity.device_class], a cached property. *)
Definition device_class : NotifyEntity -> option NotifyDeviceClass * NotifyEntity :=
  cached_property cache_device_class with_cache_device_class device_class_body.

(** [NotifyEntity._default_to_device_class_name]. *)
Definition _default_to_device_class_name (self : NotifyEntity)
    : bool * NotifyEntity :=
  let '(dc, self') := device_class self in
  (match dc with Some _ => true | None => false end, self').

(** Assignment [self._attr_device_class = v].  The class is created with
    [cached_properties=CACHED_PROPERTIES_WITH_ATTR_], which lists
    ["device_class"]; the metaclass that takes this keyword is host code.
    This is the setter it is understood to install for the [_attr_] name of
    a listed property: store the value and, when the value changed, delete
    the property's cache slot.  The properties below do not depend on this
    definition: they take the assignment as a parameter. *)
Definition set_attr_device_class (v : option NotifyDeviceClass)
    (self : NotifyEntity) : NotifyEntity :=
  if decide (_attr_device_class self = Some v) then self
  else
    mk_entity (Some v) (entity_description self)
      (__last_notified_isoformat self) None (cache_state self).

(** Assignment [self.entity_description = d]: an ordinary attribute, not in
    [CACHED_PROPERTIES_WITH_ATTR_], so no cache slot is touched. *)
Definition set_entity_description (d : NotifyEntityDescription)
    (self : NotifyEntity) : NotifyEntity :=
  mk_entity (_attr_device_class self) (Some d)
    (__last_notified_isoformat self) (cache_device_class self)
    (cache_state self).

(** Body of the [state] property. *)
Definition state_body (self : NotifyEntity) : option string :=
  __last_notified_isoformat self.

(** [NotifyEntity.state], a cached property. *)
Definition state : NotifyEntity -> option string * NotifyEntity :=
  cached_property cache_state with_cache_state state_body.

(** [del self.state]: removes the cache slot; [None] stands for the
    [AttributeError] raised when the slot is empty. *)
Definition del_state (self : NotifyEntity) : option NotifyEntity :=
  match cache_state self with
  | Some _ => Some (with_cache_state None self)
  | None => None
  end.

(** [NotifyEntity.__set_state]: the [try]/[except AttributeError: pass]
    around [del self.state], then the assignment. *)
Definition __set_state (s : option string) (self : NotifyEntity) : NotifyEntity :=
  let self1 :=
    match del_state self with
    | Some self' => self'
    | None => self
    end in
  with_last_notified s self1.

(** What runs when the entity is added to the running system, [last_state]
    being the state that the previous run saved for it.  The class defines
    no [async_added_to_hass] and no [async_internal_added_to_hass], so
    nothing in it reads the saved state; [state] is final and returns the
    private, name-mangled field that only [__set_state] assigns, and only
    [_async_send_message] calls [__set_state].  The inherited hook
    therefore leaves every attribute of the object as it is. *)
Definition async_internal_added_to_hass (last_state : option string)
    (self : NotifyEntity) : NotifyEntity :=
  self.

(** Reads and writes of the two cached properties, as small scripts. *)
Inductive state_op : Type :=
| StRead
| StSet (s : option string).

Definition run_state_op (op : state_op) (self : NotifyEntity) : NotifyEntity :=
  match op with
  | StRead => snd (state self)
  | StSet s => __set_state s self
  end.

Definition run_state_ops (ops : list state_op) (self : NotifyEntity) : NotifyEntity :=
  fold_left (fun e op => run_state_op op e) ops self.

Inductive dc_op : Type :=
| DcRead
| DcSetAttr (v : option NotifyDeviceClass).

Section DeviceClassScripts.

(** The assignment to [_attr_device_class] as the host installs it. *)
Variable assign_attr : option NotifyDeviceClass -> NotifyEntity -> NotifyEntity.

Definition run_dc_op (op : dc_op) (self : NotifyEntity) : NotifyEntity :=
  match op with
  | DcRead => snd (device_class self)
  | DcSetAttr v => assign_attr v self
  end.

Definition run_dc_ops (ops : list dc_op) (self : NotifyEntity) : NotifyEntity :=
  fold_left (fun e op => run_dc_op op e) ops self.

End DeviceClassScripts.

(** The cache slot of [state] is empty or holds the private field. *)
Definition state_coherent (self : NotifyEntity) : Prop :=
  cache_state self = None ∨ cache_state self = Some (__last_notified_isoformat self).

(** The cache slot of [device_class] is empty or holds what the body of the
    property computes now. *)
Definition dc_coherent (self : NotifyEntity) : Prop :=
  cache_device_class self = None ∨
  cache_device_class self = Some (device_class_body self).

(** ** Dispatch: the coroutines and the executor *)

Section Dispatch.

(** The state of a concrete notifier's own transport (a socket, an outbox,
    a remote API): the only thing a subclass's send logic can touch. *)
Context {T : Type}.

(** A send implementation with the four parameters of [send_message]. *)
Definition send_fn : Type :=
  pyval -> pyval -> pyval -> pyval -> T -> outcome unit * T.

(** What a subclass of [NotifyEntity] may override.  [None] keeps the base
    method.  An overriding coroutine is run as one step of the event loop.
    A send is taken to act on the transport only: a subclass whose send
    assigns attributes of the entity is outside this model. *)
Record NotifyClass : Type := mk_class {
  override_send_message : option send_fn;
  override_async_send_message : option send_fn
}.

(** [functools.partial(func, *args)]: a callable with its positional
    arguments frozen. *)
Record partial : Type := mk_partial {
  partial_func : list pyval -> T -> outcome unit * T;
  partial_args : list pyval
}.

(** What an observer of the running system can see, in order. *)
Inductive event : Type :=
| EvSetState (s : option string)
| EvWriteState (s : option string)
| EvSubmit (job : partial)
| EvRun (job : partial)
| EvAsyncSend (message title recipients data : pyval).

(** One target in the running system: the entity object, its transport
    and the events seen so far (oldest first). *)
Record world : Type := mk_world {
  entity : NotifyEntity;
  transport : T;
  log : list event
}.

Definition emit (ev : event) (w : world) : world :=
  mk_world (entity w) (transport w) (log w ++ [ev]).

(** A coroutine run from a world up to its first suspension: it has
    returned, it has raised, or it has handed [job] to the executor and is
    suspended until the job's outcome is delivered to [k]. *)
Inductive coro (A : Type) : Type :=
| Return (a : A) (w : world)
| Raise (e : exn) (w : world)
| Await (job : partial) (w : world) (k : outcome unit -> world -> coro A).
Arguments Return {A} a w.
Arguments Raise {A} e w.
Arguments Await {A} job w k.

(** [await c] followed by [f]: an exception of [c] propagates. *)
Fixpoint bind {A B : Type} (c : coro A) (f : A -> world -> coro B) : coro B :=
  match c with
  | Return a w => f a w
  | Raise e w => Raise e w
  | Await job w k => Await job w (fun r w' => bind (k r w') f)
  end.

(** Positional binding against the signature
    [(message=None, title=None, recipients=None, data=None)]. *)
Definition bind_positional (args : list pyval)
    : outcome (pyval * pyval * pyval * pyval) :=
  match args with
  | [] => Ok (VNone, VNone, VNone, VNone)
  | [m] => Ok (m, VNone, VNone, VNone)
  | [m; t] => Ok (m, t, VNone, VNone)
  | [m; t; r] => Ok (m, t, r, VNone)
  | [m; t; r; d] => Ok (m, t, r, d)
  | _ => Err TypeError
  end.

(** The parameter names of [send_message] and [async_send_message]. *)
Definition send_parameters : gset string :=
  {[ "message"; "title"; "recipients"; "data" ]}.

(** Keyword binding of the keyword arguments against the same signature: an unknown
    keyword is a [TypeError], a missing one takes its default. *)
Definition bind_keywords (kwargs : gmap string pyval)
    : outcome (pyval * pyval * pyval * pyval) :=
  if decide (dom kwargs ⊆ send_parameters) then
    Ok (default VNone (kwargs !! "message"),
        default VNone (kwargs !! "title"),
        default VNone (kwargs !! "recipients"),
        default VNone (kwargs !! "data"))
  else Err TypeError.

(** [NotifyEntity.send_message]: the base method. *)
Definition NotifyEntity_send_message : send_fn :=
  fun message title recipients data tr => (Err NotImplementedError, tr).

(** [self.send_message] after method resolution. *)
Definition send_message (cls : NotifyClass) : send_fn :=
  match override_send_message cls with
  | Some f => f
  | None => NotifyEntity_send_message
  end.

(** The bound method [self.send_message] as a callable taking positional
    arguments. *)
Definition bound_send_message (cls : NotifyClass)
    (args : list pyval) (tr : T) : outcome unit * T :=
  match bind_positional args with
  | Ok (m, t, r, d) => send_message cls m t r d tr
  | Err e => (Err e, tr)
  end.

(** [await self.hass.async_add_executor_job(job)]: the job is handed to
    the worker pool, the coroutine is suspended, and the job's result or
    exception is what the [await] yields. *)
Definition await_executor_job (job : partial) (w : world) : coro unit :=
  Await job (emit (EvSubmit job) w)
    (fun r w' => match r with Ok a => Return a w' | Err e => Raise e w' end).

(** [NotifyEntity.async_send_message]: the base coroutine awaits the
    executor job and returns [None]. *)
Definition NotifyEntity_async_send_message (cls : NotifyClass)
    (message title recipients data : pyval) (w : world) : coro unit :=
  bind
    (await_executor_job
       (mk_partial (bound_send_message cls) [message; title; recipients; data]) w)
    (fun _ w' => Return tt w').

(** [self.async_send_message] after method resolution. *)
Definition async_send_message (cls : NotifyClass)
    (message title recipients data : pyval) (w : world) : coro unit :=
  match override_async_send_message cls with
  | Some f =>
      let w1 := emit (EvAsyncSend message title recipients data) w in
      match f message title recipients data (transport w1) with
      | (Ok _, tr) => Return tt (mk_world (entity w1) tr (log w1))
      | (Err e, tr) => Raise e (mk_world (entity w1) tr (log w1))
      end
  | None => NotifyEntity_async_send_message cls message title recipients data w
  end.

(** [self.__set_state(s)] on the entity of a world. *)
Definition world_set_state (s : option string) (w : world) : world :=
  emit (EvSetState s) (mk_world (__set_state s (entity w)) (transport w) (log w)).

(** Modelled from the spec: [self.async_write_ha_state()], the host's
    publishing step, which the source only calls: it reads the [state]
    property and publishes the value as the target's observable state. *)
Definition async_write_ha_state (w : world) : world :=
  let '(s, e) := state (entity w) in
  emit (EvWriteState s) (mk_world e (transport w) (log w)).

(** [NotifyEntity._async_send_message], called with keyword arguments
    [kwargs]; [now] is the reading of the clock that [dt_util.utcnow()]
    returns. *)
Definition _async_send_message (cls : NotifyClass)
    (kwargs : gmap string pyval) (now : dt_util.datetime) (w : world)
    : coro unit :=
  let w1 := world_set_state (Some (dt_util.isoformat now)) w in
  let w2 := async_write_ha_state w1 in
  match bind_keywords kwargs with
  | Ok (m, t, r, d) =>
      bind (async_send_message cls m t r d w2) (fun _ w3 => Return tt w3)
  | Err e => Raise e w2
  end.

(** A worker of the pool runs a job: it calls the frozen callable on the
    frozen arguments. *)
Definition run_job (job : partial) (w : world) : outcome unit * world :=
  let w1 := emit (EvRun job) w in
  let '(r, tr) := partial_func job (partial_args job) (transport w1) in
  (r, mk_world (entity w1) tr (log w1)).

(** Drive a coroutine to its end, the pool running each job it awaits. *)
Fixpoint run_to_completion {A : Type} (c : coro A) : outcome A * world :=
  match c with
  | Return a w => (Ok a, w)
  | Raise e w => (Err e, w)
  | Await job w k => let '(r, w') := run_job job w in run_to_completion (k r w')
  end.

(** Whether a coroutine has finished (returned or raised) without needing
    the pool. *)
Definition finished {A : Type} (c : coro A) : bool :=
  match c with
  | Await _ _ _ => false
  | _ => true
  end.

(** The world a coroutine has reached at its first suspension or end. *)
Definition reached {A : Type} (c : coro A) : world :=
  match c with
  | Return _ w | Raise _ w | Await _ w _ => w
  end.

(** The spec's reading of the default asynchronous send: submit the
    blocking [send_message] with the four arguments, in order, to the
    worker pool, and report what it reports. *)
Definition spec_offload_send_message (cls : NotifyClass)
    (message title recipients data : pyval) (w : world) : outcome unit * world :=
  let call := mk_partial (bound_send_message cls) [message; title; recipients; data] in
  let w1 := emit (EvRun call) (emit (EvSubmit call) w) in
  let '(r, tr) := send_message cls message title recipients data (transport w1) in
  (r, mk_world (entity w1) tr (log w1)).

(** The operations through which the rest of the system acts on a target. *)
Inductive operation : Type :=
| OpDispatch (kwargs : gmap string pyval) (now : dt_util.datetime)
| OpAsyncSendMessage (message title recipients data : pyval)
| OpSendMessage (message title recipients data : pyval)
| OpReadState
| OpReadDeviceClass
| OpDefaultToDeviceClassName
| OpWriteHaState
| OpAddedToHass (last_state : option string).

Definition run_operation (cls : NotifyClass) (op : operation) (w : world) : world :=
  match op with
  | OpDispatch kwargs now => snd (run_to_completion (_async_send_message cls kwargs now w))
  | OpAsyncSendMessage m t r d => snd (run_to_completion (async_send_message cls m t r d w))
  | OpSendMessage m t r d =>
      mk_world (entity w) (snd (send_message cls m t r d (transport w))) (log w)
  | OpReadState => mk_world (snd (state (entity w))) (transport w) (log w)
  | OpReadDeviceClass => mk_world (snd (device_class (entity w))) (transport w) (log w)
  | OpDefaultToDeviceClassName =>
      mk_world (snd (_default_to_device_class_name (entity w))) (transport w) (log w)
  | OpWriteHaState => async_write_ha_state w
  | OpAddedToHass last_state =>
      mk_world (async_internal_added_to_hass last_state (entity w)) (transport w) (log w)
  end.

Definition run_operations (cls : NotifyClass) (ops : list operation) (w : world) : world :=
  fold_left (fun w op => run_operation cls op w) ops w.

(** The observable state of a target: what its [state] property returns. *)
Definition observable_state (w : world) : option string :=
  fst (state (entity w)).

(** The timestamp of the latest dispatch in a script, [init] when the
    script has none. *)
Definition last_activation (ops : list operation) (init : option string)
    : option string :=
  fold_left
    (fun acc op =>
       match op with
       | OpDispatch _ now => Some (dt_util.isoformat now)
       | _ => acc
       end) ops init.

(** Events that belong to the send: the hand-off to the pool, the run of
    the job, the call of an overriding coroutine. *)
Definition is_send_event (ev : event) : bool :=
  match ev with
  | EvSubmit _ | EvRun _ | EvAsyncSend _ _ _ _ => true
  | EvSetState _ | EvWriteState _ => false
  end.

End Dispatch.

Arguments NotifyClass T : clear implicits.
Arguments world T : clear implicits.
Arguments partial T : clear implicits.
Arguments event T : clear implicits.
Arguments coro T A : clear implicits.
Arguments Return {T A} a w.
Arguments Raise {T A} e w.
Arguments Await {T A} job w k.

(** ** The service in front of the entities *)

(** Modelled from the spec: the attribute names of [.const], which the
    source only imports; the spec names the fields [message], [title],
    [recipients] and [data], and the validated data is passed on under the
    parameter names of [async_send_message]. *)
Definition ATTR_MESSAGE : string := "message".
Definition ATTR_TITLE : string := "title".
Definition ATTR_RECIPIENTS : string := "recipients".
Definition ATTR_DATA : string := "data".

(** Modelled from the spec: [cv.string], the host's string validator, which
    the source only refers to.  The spec types [message] and [title] as
    optional strings and counts a wrong type as a validation failure. *)
Definition cv_string (v : pyval) : option pyval :=
  if is_str v then Some v else None.

(** Modelled from the spec: [cv.ensure_list], the host's list validator,
    which the source only refers to.  The spec types [recipients] as an
    ordered sequence: a list passes, any other value is a wrong type. *)
Definition cv_ensure_list (v : pyval) : option pyval :=
  match v with
  | VList _ => Some v
  | _ => None
  end.

(** A voluptuous list schema with one element validator. *)
Definition vol_list (validator : pyval -> option pyval) (v : pyval) : option pyval :=
  match v with
  | VList l => VList <$> mapM validator l
  | _ => None
  end.

(** [vol.All(v1, v2)]: the validators in sequence. *)
Definition vol_All (v1 v2 : pyval -> option pyval) (v : pyval) : option pyval :=
  v1 v ≫= v2.

(** The type [dict] used as a validator: an instance check. *)
Definition vol_dict (v : pyval) : option pyval :=
  if is_dict v then Some v else None.

(** One [vol.Optional(key): validator] entry of a dictionary schema, adding
    the validated value to [out] when the key is present. *)
Definition vol_Optional (key : string) (validator : pyval -> option pyval)
    (data out : gmap string pyval) : option (gmap string pyval) :=
  match data !! key with
  | None => Some out
  | Some v => v' ← validator v; Some (<[key := v']> out)
  end.

(** [SERVICE_SEND_MESSAGE_SCHEMA] on the fields of a call other than the
    target; [None] is [vol.Invalid].  A key the schema does not list is
    refused. *)
Definition SERVICE_SEND_MESSAGE_SCHEMA (data : gmap string pyval)
    : option (gmap string pyval) :=
  if decide (dom data ⊆ send_parameters) then
    out1 ← vol_Optional ATTR_MESSAGE cv_string data ∅;
    out2 ← vol_Optional ATTR_TITLE cv_string data out1;
    out3 ← vol_Optional ATTR_RECIPIENTS (vol_All cv_ensure_list (vol_list cv_string)) data out2;
    vol_Optional ATTR_DATA vol_dict data out3
  else None.

(** The spec's wording of a well-typed call. *)
Definition is_str_list (v : pyval) : bool :=
  match v with
  | VList l => forallb is_str l
  | _ => false
  end.

Definition well_typed (data : gmap string pyval) : Prop :=
  (∀ v, data !! "message" = Some v → is_str v) ∧
  (∀ v, data !! "title" = Some v → is_str v) ∧
  (∀ v, data !! "recipients" = Some v → is_str_list v) ∧
  (∀ v, data !! "data" = Some v → is_dict v).

Section Service.

Context {T : Type}.

(** A registered target: its class and its current world. *)
Record target : Type := mk_target {
  target_class : NotifyClass T;
  target_world : world T
}.

(** A call of the [send_message] service. *)
Record ServiceCall : Type := mk_call {
  call_target : string;
  call_data : gmap string pyval
}.

(** Modelled from the spec: the host's entity-service dispatcher that
    [async_setup] registers [_async_send_message] with, which the source
    only refers to.  The call is validated against the schema, then the
    target is resolved, then the registered method runs on it. *)
Definition handle_send_message (registry : gmap string target)
    (call : ServiceCall) (now : dt_util.datetime)
    : outcome unit * gmap string target :=
  match SERVICE_SEND_MESSAGE_SCHEMA (call_data call) with
  | None => (Err Invalid, registry)
  | Some kwargs =>
      match registry !! call_target call with
      | None => (Err TargetNotFound, registry)
      | Some t =>
          let '(r, w) :=
            run_to_completion
              (_async_send_message (target_class t) kwargs now (target_world t)) in
          (r, <[call_target call := mk_target (target_class t) w]> registry)
      end
  end.

End Service.

Arguments target T : clear implicits.

(** ** Scripts of dispatches *)

Section DispatchScripts.

Context {T : Type}.

(** The four positional arguments that a dictionary of keyword arguments
    binds to: each parameter takes the value passed under its name, [None]
    when there is none. *)
Definition keyword_arguments (kwargs : gmap string pyval) : list pyval :=
  [default VNone (kwargs !! "message"); default VNone (kwargs !! "title");
   default VNone (kwargs !! "recipients"); default VNone (kwargs !! "data")].

(** The argument lists of the jobs the pool has run, oldest first. *)
Definition runs (l : list (event T)) : list (list pyval) :=
  flat_map (fun ev => match ev with EvRun job => [partial_args job] | _ => [] end) l.

(** The states published so far, oldest first. *)
Definition published (l : list (event T)) : list (option string) :=
  flat_map (fun ev => match ev with EvWriteState s => [s] | _ => [] end) l.

(** The transport after the blocking send has run on each argument list in
    turn, whatever each run returned or raised. *)
Definition deliver (cls : NotifyClass T) (calls : list (list pyval)) (tr : T) : T :=
  fold_left (fun tr args => snd (bound_send_message cls args tr)) calls tr.

(** The state slot is coherent and the last published state, when there is
    one, is the private field; with no publication the field is unset. *)
Definition publication_invariant (w : world T) : Prop :=
  state_coherent (entity w) ∧
  match last (published (log w)) with
  | Some s => s = __last_notified_isoformat (entity w)
  | None => __last_notified_isoformat (entity w) = None
  end.

(** A script of dispatches, each with its keyword arguments and the clock
    reading it takes. *)
Definition dispatches (ds : list (gmap string pyval * dt_util.datetime))
    : list operation :=
  map (fun d => OpDispatch (fst d) (snd d)) ds.

(** Two overlapping dispatches on one target: the first runs up to its
    hand-off, the second then runs from start to end, and only afterwards
    does the pool run the first job and resume the first coroutine.  The
    result is that of the first dispatch with its final world, and that of
    the second; [None] when the first dispatch ends without a hand-off. *)
Definition overlapped (cls : NotifyClass T)
    (kwargs1 : gmap string pyval) (now1 : dt_util.datetime)
    (kwargs2 : gmap string pyval) (now2 : dt_util.datetime) (w : world T)
    : option (outcome unit * outcome unit * world T) :=
  match _async_send_message cls kwargs1 now1 w with
  | Await job1 w1 k1 =>
      let '(r2, w2) := run_to_completion (_async_send_message cls kwargs2 now2 w1) in
      let '(j1, w3) := run_job job1 w2 in
      let '(r1, w4) := run_to_completion (k1 j1 w3) in
      Some (r1, r2, w4)
  | _ => None
  end.

End DispatchScripts.

(** ** The other schemas of the module *)

(** [NotifyDeviceClass.value]: the string of a member. *)
Definition NotifyDeviceClass_value (c : NotifyDeviceClass) : string :=
  match c with MESSAGE_NOTIFIER => "message_notifier" end.

(** [NotifyDeviceClass(v)]: the member with value [v]; [None] is the
    [ValueError] for a string that is no member's value. *)
Definition NotifyDeviceClass_of_value (v : string) : option NotifyDeviceClass :=
  if decide (v = "message_notifier") then Some MESSAGE_NOTIFIER else None.

(** [str.lower] on the characters of a byte string: the letters [A] to [Z]
    move to [a] to [z], every other byte stays. *)
Definition ascii_lower (c : ascii) : ascii :=
  let n := N_of_ascii c in
  if ((65 <=? n) && (n <=? 90))%N then ascii_of_N (n + 32) else c.

Fixpoint str_lower (s : string) : string :=
  match s with
  | EmptyString => EmptyString
  | String c s' => String (ascii_lower c) (str_lower s')
  end.

(** [vol.Lower] on a string. *)
Definition vol_Lower (v : string) : string := str_lower v.

(** [vol.Coerce(type)]: the constructor's error becomes [vol.Invalid]. *)
Definition vol_Coerce {A : Type} (type : string -> option A) (v : string) : option A :=
  type v.

(** [DEVICE_CLASSES_SCHEMA], the two validators in sequence. *)
Definition DEVICE_CLASSES_SCHEMA (v : string) : option NotifyDeviceClass :=
  vol_Coerce NotifyDeviceClass_of_value (vol_Lower v).

(** One [vol.Required(key): validator] entry of a dictionary schema: a
    missing key is refused. *)
Definition vol_Required (key : string) (validator : pyval -> option pyval)
    (data out : gmap string pyval) : option (gmap string pyval) :=
  match data !! key with
  | None => None
  | Some v => v' ← validator v; Some (<[key := v']> out)
  end.

Section PlatformSchema.

(** [CONF_PLATFORM] and [CONF_NAME] of the host's constants, and the host's
    string validator [cv.string]. *)
Variables (CONF_PLATFORM CONF_NAME : string).
Variable string_validator : pyval -> option pyval.

(** [PLATFORM_SCHEMA]: with [extra=vol.ALLOW_EXTRA] a key the schema does
    not list is kept with its value, so the result starts from the data. *)
Definition PLATFORM_SCHEMA (data : gmap string pyval) : option (gmap string pyval) :=
  out1 ← vol_Required CONF_PLATFORM string_validator data data;
  vol_Optional CONF_NAME string_validator data out1.

End PlatformSchema.

(** ** The persistent-notification service *)

(** Exceptions of the code outside the entity class. *)
Inductive py_error : Type :=
| KeyError (key : string)
| TemplateError.

Section PersistentNotification.

(** The host's template objects; [async_render] is a template's
    [async_render(parse_result=False)], [None] when rendering raises. *)
Variable Template : Type.
Variable async_render : Template -> option string.

(** [pn.ATTR_NOTIFICATION_ID]. *)
Variable ATTR_NOTIFICATION_ID : string.

(** The data of a call after the service's schema: templates for the
    message and the title, a dictionary for the data; each may be missing
    from the dictionary of the call. *)
Record NotifyServiceData : Type := mk_service_data {
  sd_message : option Template;
  sd_title : option Template;
  sd_data : option (gmap string pyval)
}.

(** What the handler does to the rest of the system, in order. *)
Inductive pn_event : Type :=
| PnCheck (t : Template)
| PnCreate (message : string) (title : option string) (notification_id : pyval).

(** The two lines that compute [notification_id]: an absent or empty
    dictionary is falsy and leaves [None]; otherwise [dict.get]. *)
Definition notification_id_of (data : option (gmap string pyval)) : pyval :=
  match data with
  | Some d =>
      if decide (size d = 0) then VNone
      else default VNone (d !! ATTR_NOTIFICATION_ID)
  | None => VNone
  end.

(** The handler [persistent_notification] that [async_setup] registers. *)
Definition persistent_notification (call : NotifyServiceData)
    : (py_error + unit) * list pn_event :=
  match sd_message call with
  | None => (inl (KeyError ATTR_MESSAGE), [])
  | Some message =>
      let evs := [PnCheck message] in
      let create (title : option string) (evs : list pn_event) :=
        let notification_id := notification_id_of (sd_data call) in
        match async_render message with
        | Some text => (inr tt, evs ++ [PnCreate text title notification_id])
        | None => (inl TemplateError, evs)
        end in
      match sd_title call with
      | Some title_tpl =>
          let evs := evs ++ [PnCheck title_tpl] in
          match async_render title_tpl with
          | Some title => create (Some title) evs
          | None => (inl TemplateError, evs)
          end
      | None => create None evs
      end
  end.

(** The notifications created, oldest first. *)
Definition creations (evs : list pn_event) : list (string * option string * pyval) :=
  flat_map (fun ev => match ev with PnCreate m t i => [(m, t, i)] | _ => [] end) evs.

End PersistentNotification.

Arguments PnCheck {Template} t.
Arguments PnCreate {Template} message title notification_id.
Arguments sd_message {Template} n.
Arguments sd_title {Template} n.
Arguments sd_data {Template} n.
Arguments creations {Template} evs.

(** ** The Ender connector and its configuration flow *)

Module ender_connector.

(** What the socket does while [run_forever] is running. *)
Inductive socket_event : Type :=
| Opened
| Received (message : string)
| Failed (error : string)
| Closed (close_status_code : Z) (close_msg : string).

(** A [websocket.WebSocketApp]: its address and the callbacks registered on
    it.  A callback is given by the frames it sends on the socket. *)
Record WebSocketApp : Type := mk_app {
  ws_url : string;
  on_open : option (list string);
  on_message : option (string -> list string);
  on_error : option (string -> list string);
  on_close : option (Z -> string -> list string)
}.

(** [EnderConnector]: the one attribute of an instance. *)
Record EnderConnector : Type := mk_connector {
  _ws : option WebSocketApp
}.

(** [EnderConnector.__init__]. *)
Definition __init__ : EnderConnector := mk_connector None.

(** The three handlers whose body is a docstring. *)
Definition _on_message (message : string) : list string := [].
Definition _on_error (error : string) : list string := [].
Definition _on_close (close_status_code : Z) (close_msg : string) : list string := [].

(** [_on_open]: one [ws.send]. *)
Definition _on_open : list string := ["Hello, Server!"].

(** The frames sent by the callback the library calls for an event; no
    callback, no frame. *)
Definition fire (app : WebSocketApp) (ev : socket_event) : list string :=
  match ev with
  | Opened => default [] (on_open app)
  | Received m => default [] ((fun f => f m) <$> on_message app)
  | Failed e => default [] ((fun f => f e) <$> on_error app)
  | Closed c m => default [] ((fun f => f c m) <$> on_close app)
  end.

Definition is_closed (ev : socket_event) : bool :=
  match ev with Closed _ _ => true | _ => false end.

Definition is_opened (ev : socket_event) : bool :=
  match ev with Opened => true | _ => false end.

(** [WebSocketApp.run_forever]: callbacks are called event by event; the
    call returns when the socket has closed.  The result says whether it
    returned within the given events, and what was sent. *)
Fixpoint run_forever (app : WebSocketApp) (events : list socket_event)
    : bool * list string :=
  match events with
  | [] => (false, [])
  | ev :: rest =>
      if is_closed ev then (true, fire app ev)
      else let '(returned, sent) := run_forever app rest in
           (returned, fire app ev ++ sent)
  end.

Section Setup.

(** What an f-string makes of a value of any type. *)
Variable py_format : pyval -> string.

(** [EnderConnector.setup]: the connector after the assignments, whether
    the call returned within the given events, and what it sent. *)
Definition setup (self : EnderConnector) (host : pyval)
    (events : list socket_event) : EnderConnector * bool * list string :=
  let ws :=
    mk_app ("ws://" +:+ py_format host +:+ "/") None
      (Some _on_message) (Some _on_error) (Some _on_close) in
  let ws := mk_app (ws_url ws) (Some _on_open)
              (on_message ws) (on_error ws) (on_close ws) in
  let '(returned, sent) := run_forever ws events in
  (mk_connector (Some ws), returned, sent).

End Setup.

(** The events up to the one that closes the socket. *)
Fixpoint before_close (events : list socket_event) : list socket_event :=
  match events with
  | [] => []
  | ev :: rest => if is_closed ev then [] else ev :: before_close rest
  end.

End ender_connector.

Module config_flow.

Import ender_connector.

(** [ConfigFlow]: the one attribute of an instance. *)
Record ConfigFlow : Type := mk_flow {
  _host : option pyval
}.

(** [ConfigFlow.__init__]. *)
Definition __init__ : ConfigFlow := mk_flow None.

(** How a call of a step ends: it returns a result, it raises, or it is
    still inside [run_forever] when the given events end. *)
Inductive step_outcome (R : Type) : Type :=
| StepReturned (result : R)
| StepRaised (e : py_error)
| StepBlocked.
Arguments StepReturned {R} result.
Arguments StepRaised {R} e.
Arguments StepBlocked {R}.

(** The type [str] used as a validator: an instance check. *)
Definition vol_str (v : pyval) : option pyval :=
  if is_str v then Some v else None.

Section Flow.

(** [CONF_HOST] of the host's constants, the host's [async_show_form], and
    the formatting of values in f-strings. *)
Variable CONF_HOST : string.
Variable R : Type.
Variable async_show_form :
  string -> (gmap string pyval -> option (gmap string pyval)) -> R.
Variable py_format : pyval -> string.

(** The schema of the form: one required string, no other key. *)
Definition schema (data : gmap string pyval) : option (gmap string pyval) :=
  if decide (dom data ⊆ {[ CONF_HOST ]}) then
    vol_Required CONF_HOST vol_str data ∅
  else None.

(** [ConfigFlow.async_step_user]: the flow after the call, how the call
    ended, and what was sent on the socket meanwhile. *)
Definition async_step_user (self : ConfigFlow)
    (user_input : option (gmap string pyval)) (events : list socket_event)
    : ConfigFlow * step_outcome R * list string :=
  match user_input with
  | Some input =>
      match input !! CONF_HOST with
      | None => (self, StepRaised (KeyError CONF_HOST), [])
      | Some host =>
          let self := mk_flow (Some host) in
          let '(ender, returned, sent) := setup py_format ender_connector.__init__ host events in
          if returned then (self, StepReturned (async_show_form "user" schema), sent)
          else (self, StepBlocked, sent)
      end
  | None => (self, StepReturned (async_show_form "user" schema), [])
  end.

End Flow.

End config_flow.

(** ** Sample targets *)

(** A notifier that overrides [send_message] only: it appends the message
    text to an outbox and returns. *)
Definition pager_class : NotifyClass (list string) :=
  mk_class
    (Some (fun message title recipients data outbox =>
             (Ok tt,
              match message with
              | VStr s => outbox ++ [s]
              | _ => outbox
              end)))
    None.

(** A class that overrides neither send method. *)
Definition bare_class : NotifyClass (list string) := mk_class None None.

(** A target that has never been activated. *)
Definition idle_world : world (list string) :=
  mk_world (new_entity None (Some (mk_description (Some MESSAGE_NOTIFIER)))) [] [].

Definition noon : dt_util.datetime := dt_util.mk_datetime 2024 5 1 12 0 0 0.
Definition just_past_noon : dt_util.datetime :=
  dt_util.mk_datetime 2024 5 1 12 0 0 250000.

Definition hi_call : gmap string pyval := {[ "message" := VStr "hi" ]}.

Definition bye_call : gmap string pyval := {[ "message" := VStr "bye" ]}.

(** A call with a keyword that the send methods do not take. *)
Definition subject_call : gmap string pyval := {[ "subject" := VStr "hi" ]}.

(** A formatting of values that gives a string back as it is. *)
Definition sample_format (v : pyval) : string :=
  match v with VStr s => s | _ => "" end.

(** A socket that opens, receives a message and closes. *)
Definition sample_session : list ender_connector.socket_event :=
  [ender_connector.Opened; ender_connector.Received "ok";
   ender_connector.Closed 1000 ""].

(** * Properties *)

(** ** Rendering of timestamps *)

Example isoformat_whole_second :
  dt_util.isoformat (dt_util.mk_datetime 2024 5 1 10 0 0 0)
  = "2024-05-01T10:00:00+00:00".
Proof. reflexivity. Qed.

Example isoformat_with_fraction :
  dt_util.isoformat (dt_util.mk_datetime 2024 5 1 10 0 0 1234)
  = "2024-05-01T10:00:00.001234+00:00".
Proof. reflexivity. Qed.

(** ** The cached [state] property *)

Lemma set_state_field s self :
  __last_notified_isoformat (__set_state s self) = s.
Proof. unfold __set_state, del_state. destruct (cache_state self); reflexivity. Qed.

Lemma set_state_cache s self : cache_state (__set_state s self) = None.
Proof.
  unfold __set_state, del_state.
  destruct (cache_state self) eqn:E; simpl; [reflexivity | exact E].
Qed.

Lemma set_state_coherent s self : state_coherent (__set_state s self).
Proof. left. apply set_state_cache. Qed.

Lemma state_coherent_read self :
  state_coherent self → fst (state self) = __last_notified_isoformat self.
Proof.
  unfold state, cached_property, state_body.
  intros [H | H]; rewrite H; reflexivity.
Qed.

Lemma state_read_field self :
  __last_notified_isoformat (snd (state self)) = __last_notified_isoformat self.
Proof. unfold state, cached_property. destruct (cache_state self); reflexivity. Qed.

Lemma state_read_coherent self :
  state_coherent self → state_coherent (snd (state self)).
Proof.
  unfold state_coherent, state, cached_property, state_body.
  intros [H | H]; rewrite H; simpl; right; [reflexivity | exact H].
Qed.

(** Reading [state] twice gives the same value: the first read fixes it. *)
Lemma state_read_idempotent self :
  fst (state (snd (state self))) = fst (state self).
Proof.
  unfold state, cached_property.
  destruct (cache_state self) eqn:E; simpl; rewrite ?E; reflexivity.
Qed.

Lemma read_after_set_state s self : fst (state (__set_state s self)) = s.
Proof.
  rewrite state_coherent_read by apply set_state_coherent.
  apply set_state_field.
Qed.

Lemma run_state_ops_app ops1 ops2 self :
  run_state_ops (ops1 ++ ops2) self = run_state_ops ops2 (run_state_ops ops1 self).
Proof. apply fold_left_app. Qed.

Lemma reads_keep_state n self :
  state_coherent self →
  state_coherent (run_state_ops (repeat StRead n) self) ∧
  __last_notified_isoformat (run_state_ops (repeat StRead n) self)
  = __last_notified_isoformat self.
Proof.
  revert self. induction n as [| n IH]; intros self Hc; simpl.
  - split; [exact Hc | reflexivity].
  - destruct (IH (snd (state self)) (state_read_coherent _ Hc)) as [H1 H2].
    split; [exact H1 |]. unfold run_state_ops in H2. simpl in H2.
    etrans; [exact H2 | apply state_read_field].
Qed.

(** C10: whatever happened to the entity before, a read of [state] that
    follows [__set_state s], directly or after further reads, returns
    exactly [s], the value held by the private last-notified field: every
    write empties the cache slot. *)
Theorem state_read_after_write (self : NotifyEntity) (before : list state_op)
    (s : option string) (n : nat) :
  fst (state (__set_state s self)) = s ∧
  fst (state (run_state_ops (before ++ StSet s :: repeat StRead n) self)) = s ∧
  __last_notified_isoformat
    (run_state_ops (before ++ StSet s :: repeat StRead n) self) = s.
Proof.
  split; [apply read_after_set_state |].
  rewrite run_state_ops_app.
  set (e0 := run_state_ops before self).
  change (run_state_ops (StSet s :: repeat StRead n) e0)
    with (run_state_ops (repeat StRead n) (__set_state s e0)).
  destruct (reads_keep_state n (__set_state s e0) (set_state_coherent s e0))
    as [Hc Hf].
  rewrite state_coherent_read by exact Hc.
  rewrite Hf, set_state_field. split; reflexivity.
Qed.

(** ** The cached [device_class] property *)

Lemma dc_coherent_read self :
  dc_coherent self → fst (device_class self) = device_class_body self.
Proof.
  unfold device_class, cached_property.
  intros [H | H]; rewrite H; reflexivity.
Qed.

Lemma dc_read_coherent self : dc_coherent self → dc_coherent (snd (device_class self)).
Proof.
  unfold dc_coherent, device_class, cached_property.
  intros [H | H]; rewrite H; simpl; right; [reflexivity | exact H].
Qed.

Lemma dc_read_description self :
  entity_description (snd (device_class self)) = entity_description self.
Proof.
  unfold device_class, cached_property. destruct (cache_device_class self); reflexivity.
Qed.

(** The modelled setter keeps the description and either changes nothing or
    empties the cache slot. *)
Lemma set_attr_device_class_description v self :
  entity_description (set_attr_device_class v self) = entity_description self.
Proof. unfold set_attr_device_class. destruct (decide _); reflexivity. Qed.

Lemma set_attr_device_class_invalidates v self :
  set_attr_device_class v self = self ∨
  cache_device_class (set_attr_device_class v self) = None.
Proof. unfold set_attr_device_class. destruct (decide _); [left | right]; reflexivity. Qed.

Section DeviceClassCache.

(** Any assignment to [_attr_device_class] that leaves the description alone
    and, unless it changes nothing, empties the cache slot of
    [device_class]. *)
Variable assign_attr : option NotifyDeviceClass → NotifyEntity → NotifyEntity.
Hypothesis assign_attr_description :
  ∀ v self, entity_description (assign_attr v self) = entity_description self.
Hypothesis assign_attr_invalidates :
  ∀ v self, assign_attr v self = self ∨ cache_device_class (assign_attr v self) = None.

Lemma run_dc_op_coherent op self :
  dc_coherent self → dc_coherent (run_dc_op assign_attr op self).
Proof.
  destruct op as [| v]; simpl; [apply dc_read_coherent |].
  intros Hc. destruct (assign_attr_invalidates v self) as [-> | H];
    [exact Hc | left; exact H].
Qed.

Lemma run_dc_op_description op self :
  entity_description (run_dc_op assign_attr op self) = entity_description self.
Proof.
  destruct op as [| v]; simpl;
    [apply dc_read_description | apply assign_attr_description].
Qed.

Lemma run_dc_ops_invariant ops self :
  dc_coherent self →
  dc_coherent (run_dc_ops assign_attr ops self) ∧
  entity_description (run_dc_ops assign_attr ops self) = entity_description self.
Proof.
  revert self. induction ops as [| op ops IH]; intros self Hc.
  - split; [exact Hc | reflexivity].
  - destruct (IH (run_dc_op assign_attr op self) (run_dc_op_coherent op self Hc))
      as [H1 H2].
    split; [exact H1 |]. etrans; [exact H2 | apply run_dc_op_description].
Qed.

(** C7, as the code has it: on an entity whose description is fixed at
    construction, after any reads of [device_class] and assignments to
    [_attr_device_class], a read of [device_class] returns the explicit
    override when the attribute exists, otherwise the description's device
    class when a description exists, otherwise [None]. *)
Theorem device_class_resolution
    (attr : option (option NotifyDeviceClass))
    (desc : option NotifyEntityDescription) (ops : list dc_op) :
  let self := run_dc_ops assign_attr ops (new_entity attr desc) in
  entity_description self = desc ∧
  fst (device_class self) =
    match _attr_device_class self with
    | Some v => v
    | None =>
        match desc with
        | Some d => description_device_class d
        | None => None
        end
    end.
Proof.
  intros self.
  destruct (run_dc_ops_invariant ops (new_entity attr desc)) as [Hc Hd];
    [left; reflexivity |].
  fold self in Hc, Hd. simpl in Hd. split; [exact Hd |].
  rewrite (dc_coherent_read self Hc). unfold device_class_body.
  rewrite Hd. reflexivity.
Qed.

End DeviceClassCache.

(** C7, as stated, fails: an entity that is read once while it has neither
    source keeps answering [None] after it is given a description whose
    device class is [MESSAGE_NOTIFIER]. *)
Lemma device_class_stale_after_description :
  let e1 := snd (device_class (new_entity None None)) in
  let e2 := set_entity_description (mk_description (Some MESSAGE_NOTIFIER)) e1 in
  fst (device_class e2) = None ∧
  device_class_body e2 = Some MESSAGE_NOTIFIER ∧
  fst (device_class e2) ≠ device_class_body e2.
Proof. cbv. split; [reflexivity | split; [reflexivity | discriminate]]. Qed.

(** ** Dispatch *)

Section DispatchFacts.

Context {T : Type}.
Implicit Types (cls : NotifyClass T) (w : world T) (now : dt_util.datetime).

(** The world after the stamp and the publication. *)
Lemma stamp_then_publish s w :
  async_write_ha_state (world_set_state s w)
  = mk_world (with_cache_state (Some s) (__set_state s (entity w)))
      (transport w) (log w ++ [EvSetState s; EvWriteState s]).
Proof.
  destruct w as [[attr desc last cdc [cs |]] tr lg];
    unfold async_write_ha_state, world_set_state, emit; simpl;
    rewrite <- app_assoc; reflexivity.
Qed.


(** Four frozen positional arguments reach the four parameters in order. *)
Lemma bound_send_message_four cls m t r d (tr : T) :
  bound_send_message cls [m; t; r; d] tr = send_message cls m t r d tr.
Proof. reflexivity. Qed.

(** The default asynchronous send, run with the pool. *)
Lemma run_default_async_send cls m t r d w :
  override_async_send_message cls = None →
  run_to_completion (async_send_message cls m t r d w)
  = spec_offload_send_message cls m t r d w.
Proof.
  intros H. unfold async_send_message. rewrite H.
  unfold NotifyEntity_async_send_message, await_executor_job,
    spec_offload_send_message. simpl.
  unfold run_job. simpl. rewrite bound_send_message_four.
  destruct (send_message cls m t r d (transport w)) as [[[] | e] tr]; reflexivity.
Qed.

(** Any asynchronous send leaves the entity alone and only appends send
    events. *)
Lemma run_async_send_shape cls m t r d w :
  let w' := snd (run_to_completion (async_send_message cls m t r d w)) in
  entity w' = entity w ∧
  ∃ sends, log w' = log w ++ sends ∧ sends ≠ [] ∧ forallb is_send_event sends = true.
Proof.
  destruct (override_async_send_message cls) as [f |] eqn:H.
  - unfold async_send_message. rewrite H. simpl.
    destruct (f m t r d (transport w)) as [[[] | e] tr]; simpl;
      (split; [reflexivity | eexists [_]; repeat split; discriminate]).
  - rewrite run_default_async_send by exact H.
    unfold spec_offload_send_message. simpl.
    destruct (send_message cls m t r d (transport w)) as [res tr]; simpl.
    split; [reflexivity |].
    eexists [_; _]. rewrite <- app_assoc. repeat split; discriminate.
Qed.

(** Awaiting a coroutine and returning [None] ends as the coroutine does. *)
Lemma run_bind_return (c : coro T unit) :
  run_to_completion (bind c (fun _ w => Return tt w)) = run_to_completion c.
Proof.
  induction c as [[] w | e w | job w k IH]; simpl; [reflexivity | reflexivity |].
  destruct (run_job job w) as [r w']. apply IH.
Qed.

Lemma run_dispatch_unfold cls kwargs now w :
  run_to_completion (_async_send_message cls kwargs now w)
  = let w2 := async_write_ha_state
                (world_set_state (Some (dt_util.isoformat now)) w) in
    match bind_keywords kwargs with
    | Ok (m, t, r, d) => run_to_completion (async_send_message cls m t r d w2)
    | Err e => (Err e, w2)
    end.
Proof.
  unfold _async_send_message. cbv zeta.
  destruct (bind_keywords kwargs) as [[[[m t] r] d] | e]; [| reflexivity].
  apply run_bind_return.
Qed.

(** The entity after a dispatch, whatever the send did. *)
Lemma run_dispatch_entity cls kwargs now w :
  entity (snd (run_to_completion (_async_send_message cls kwargs now w)))
  = with_cache_state (Some (Some (dt_util.isoformat now)))
      (__set_state (Some (dt_util.isoformat now)) (entity w)).
Proof.
  rewrite run_dispatch_unfold. cbv zeta. rewrite stamp_then_publish.
  destruct (bind_keywords kwargs) as [[[[m t] r] d] | e]; [| reflexivity].
  destruct (run_async_send_shape cls m t r d
    (mk_world (with_cache_state (Some (Some (dt_util.isoformat now)))
                 (__set_state (Some (dt_util.isoformat now)) (entity w)))
       (transport w)
       (log w ++ [EvSetState (Some (dt_util.isoformat now));
                  EvWriteState (Some (dt_util.isoformat now))]))) as [He _].
  exact He.
Qed.



(** *** The observable state never goes back to absent *)

Lemma device_class_keeps_state (e : NotifyEntity) :
  fst (state (snd (device_class e))) = fst (state e).
Proof.
  destruct e as [attr desc last [cdc |] [cs |]]; reflexivity.
Qed.

Lemma observable_after_operation cls op w :
  observable_state (run_operation cls op w)
  = match op with
    | OpDispatch _ now => Some (dt_util.isoformat now)
    | _ => observable_state w
    end.
Proof.
  unfold observable_state.
  destruct op as [kwargs now | m t r d | m t r d | | | | | last]; simpl.
  - rewrite run_dispatch_entity. reflexivity.
  - destruct (run_async_send_shape cls m t r d w) as [He _].
    simpl in He. rewrite He. reflexivity.
  - reflexivity.
  - apply state_read_idempotent.
  - apply device_class_keeps_state.
  - unfold _default_to_device_class_name.
    pose proof (device_class_keeps_state (entity w)) as H.
    destruct (device_class (entity w)) as [dc e']. exact H.
  - unfold async_write_ha_state.
    pose proof (state_read_idempotent (entity w)) as H.
    destruct (state (entity w)) as [s e']. exact H.
  - reflexivity.
Qed.

Lemma observable_after_operations cls ops w :
  observable_state (run_operations cls ops w)
  = last_activation ops (observable_state w).
Proof.
  revert w. induction ops as [| op ops IH]; intros w; [reflexivity |].
  unfold run_operations, last_activation in *. simpl.
  rewrite IH, observable_after_operation.
  destruct op; reflexivity.
Qed.

Lemma last_activation_some ops (t : string) :
  is_Some (last_activation ops (Some t)).
Proof.
  unfold last_activation. revert t.
  induction ops as [| op ops IH]; intros t; simpl; [eauto |].
  destruct op; apply IH.
Qed.

Lemma last_activation_app (ops1 ops2 : list operation) (init : option string) :
  last_activation (ops1 ++ ops2) init = last_activation ops2 (last_activation ops1 init).
Proof. apply fold_left_app. Qed.

(** C2: a new target reports no state.  A dispatch to any target, one that
    has never been activated included, sets the state to the timestamp of
    the dispatch whatever the send does.  After any sequence of operations
    the state is the timestamp of the latest dispatch in the sequence, and
    the state from before when the sequence has no dispatch.  So a sequence
    of operations that contains a dispatch ends in a timestamp from any
    start, and from a target whose state is a timestamp every sequence of
    operations ends in a timestamp: nothing leads back to no state. *)
Theorem observable_state_never_resets cls w
    (attr : option (option NotifyDeviceClass))
    (desc : option NotifyEntityDescription) (tr : T) (lg : list (event T))
    (kwargs : gmap string pyval) now (ops ops' : list operation) :
  observable_state (mk_world (new_entity attr desc) tr lg) = None ∧
  observable_state (run_operation cls (OpDispatch kwargs now) w)
    = Some (dt_util.isoformat now) ∧
  observable_state
    (run_operation cls (OpDispatch kwargs now) (mk_world (new_entity attr desc) tr lg))
    = Some (dt_util.isoformat now) ∧
  observable_state (run_operations cls ops w)
    = last_activation ops (observable_state w) ∧
  observable_state (run_operations cls (ops ++ OpDispatch kwargs now :: ops') w)
    = last_activation ops' (Some (dt_util.isoformat now)) ∧
  is_Some (observable_state
             (run_operations cls (ops ++ OpDispatch kwargs now :: ops') w)) ∧
  (∀ t : string, observable_state w = Some t →
     observable_state (run_operations cls ops w) = last_activation ops (Some t) ∧
     is_Some (observable_state (run_operations cls ops w))).
Proof.
  assert (Hd : ∀ w0, observable_state (run_operation cls (OpDispatch kwargs now) w0)
                     = Some (dt_util.isoformat now))
    by (intros w0; apply (observable_after_operation cls (OpDispatch kwargs now) w0)).
  assert (Hseq : observable_state
                   (run_operations cls (ops ++ OpDispatch kwargs now :: ops') w)
                 = last_activation ops' (Some (dt_util.isoformat now))).
  { rewrite observable_after_operations, last_activation_app. reflexivity. }
  split; [reflexivity |]. split; [apply Hd |]. split; [apply Hd |].
  split; [apply observable_after_operations |].
  split; [exact Hseq |].
  split; [rewrite Hseq; apply last_activation_some |].
  intros t Hw. rewrite observable_after_operations, Hw.
  split; [reflexivity | apply last_activation_some].
Qed.

(** *** Hand-off and completion *)

(** C4, as the code has it: on the default asynchronous path a dispatch
    stamps, publishes, hands the blocking send to the worker pool and is
    then suspended; it has not returned at the hand-off.  It returns when
    the job has returned and raises what the job raised, so its outcome is
    the outcome of the send. *)
Theorem dispatch_awaits_completion cls (kwargs : gmap string pyval) now w
    (m t r d : pyval) :
  override_async_send_message cls = None →
  bind_keywords kwargs = Ok (m, t, r, d) →
  let ts := Some (dt_util.isoformat now) in
  let job := mk_partial (bound_send_message cls) [m; t; r; d] in
  let c := _async_send_message cls kwargs now w in
  finished c = false ∧
  (∃ w2 k,
      c = Await job w2 k ∧
      transport w2 = transport w ∧
      log w2 = log w ++ [EvSetState ts; EvWriteState ts; EvSubmit job] ∧
      (∀ w3, k (Ok tt) w3 = Return tt w3) ∧
      (∀ e w3, k (Err e) w3 = Raise e w3)) ∧
  fst (run_to_completion c) = fst (send_message cls m t r d (transport w)).
Proof.
  intros Ho Hk ts job c. subst c.
  unfold _async_send_message. cbv zeta. fold ts. rewrite stamp_then_publish, Hk.
  unfold async_send_message. rewrite Ho.
  unfold NotifyEntity_async_send_message, await_executor_job. fold job.
  split; [reflexivity |]. split.
  - eexists _, _. split; [reflexivity |]. simpl.
    split; [reflexivity |]. split; [rewrite <- app_assoc; reflexivity |].
    split; reflexivity.
  - simpl. unfold run_job. simpl. rewrite bound_send_message_four.
    destruct (send_message cls m t r d (transport w)) as [[[] | e] tr]; reflexivity.
Qed.

(** *** The default asynchronous send *)

(** C6: for a class that keeps the base [async_send_message], the
    coroutine hands to the pool the callable [send_message] frozen with
    [message], [title], [recipients], [data] in that order; run with the
    pool it is the spec's offloaded send, and its outcome and its effect
    on the transport are those of the blocking call
    [send_message(message, title, recipients, data)]. *)
Theorem default_async_send_is_offloaded_send cls (m t r d : pyval) w :
  override_async_send_message cls = None →
  let job := mk_partial (bound_send_message cls) [m; t; r; d] in
  let done := run_to_completion (async_send_message cls m t r d w) in
  (∃ k, async_send_message cls m t r d w = Await job (emit (EvSubmit job) w) k) ∧
  done = spec_offload_send_message cls m t r d w ∧
  fst done = fst (send_message cls m t r d (transport w)) ∧
  transport (snd done) = snd (send_message cls m t r d (transport w)) ∧
  entity (snd done) = entity w ∧
  log (snd done) = log w ++ [EvSubmit job; EvRun job].
Proof.
  intros Ho job done. split.
  - unfold async_send_message. rewrite Ho. eexists. reflexivity.
  - subst done. rewrite run_default_async_send by exact Ho.
    split; [reflexivity |].
    unfold spec_offload_send_message. fold job. simpl.
    destruct (send_message cls m t r d (transport w)) as [res tr]. simpl.
    rewrite <- app_assoc. auto.
Qed.

(** *** The base class *)

(** C9: the base [send_message] raises [NotImplementedError] on every
    input and leaves the transport alone; so a dispatch to a target whose
    class overrides neither send method ends in an exception, which is
    [NotImplementedError] when the keyword arguments bind, and by then the
    entity carries the timestamp of the dispatch, stamped and published
    before the job was handed over. *)
Theorem base_send_not_implemented (kwargs : gmap string pyval) now w
    (m t r d : pyval) (tr : T) :
  let base := mk_class None None in
  let ts := Some (dt_util.isoformat now) in
  let done := run_to_completion (_async_send_message base kwargs now w) in
  NotifyEntity_send_message m t r d tr = (Err NotImplementedError, tr) ∧
  send_message base m t r d tr = (Err NotImplementedError, tr) ∧
  fst done = match bind_keywords kwargs with
             | Ok _ => Err NotImplementedError
             | Err e => Err e
             end ∧
  observable_state (snd done) = ts ∧
  transport (snd done) = transport w ∧
  ∃ sends, log (snd done) = log w ++ [EvSetState ts; EvWriteState ts] ++ sends ∧
           forallb is_send_event sends = true.
Proof.
  intros base ts done. split; [reflexivity |]. split; [reflexivity |].
  subst done. rewrite run_dispatch_unfold. cbv zeta. fold ts.
  rewrite stamp_then_publish.
  destruct (bind_keywords kwargs) as [[[[m' t'] r'] d'] | e]; simpl.
  - repeat split; try reflexivity.
    eexists [_; _]. rewrite <- !app_assoc. split; reflexivity.
  - repeat split; try reflexivity. exists []. split; reflexivity.
Qed.

(** *** Restart *)

(** C3 fails on the code: a dispatch leaves the target with its timestamp as
    state, but an entity constructed anew and added to the system reports no
    state, whatever state the previous run saved, that timestamp included. *)
Theorem restart_forgets_last_notified cls (kwargs : gmap string pyval) now w
    (attr : option (option NotifyDeviceClass))
    (desc : option NotifyEntityDescription) (last_state : option string) :
  let before := run_operation cls (OpDispatch kwargs now) w in
  observable_state before = Some (dt_util.isoformat now) ∧
  fst (state (async_internal_added_to_hass (observable_state before)
                (new_entity attr desc))) = None ∧
  fst (state (async_internal_added_to_hass last_state (new_entity attr desc))) = None ∧
  fst (state (async_internal_added_to_hass
                (Some "2024-05-01T10:00:00+00:00") (new_entity None None))) = None.
Proof.
  intros before. split.
  - apply (observable_after_operation cls (OpDispatch kwargs now) w).
  - repeat split.
Qed.

End DispatchFacts.

(** ** Order of rendered timestamps *)

Section IsoformatOrder.

Import dt_util.

Lemma compare_append_same_length (a b x y : string) :
  String.length a = String.length b →
  String.compare (a +:+ x) (b +:+ y)
  = lex (String.compare a b) (String.compare x y).
Proof.
  revert b. induction a as [| c a IH]; intros [| c' b] Hl; simpl in *;
    try discriminate; [reflexivity |].
  destruct (Ascii.compare c c'); [apply IH; congruence | reflexivity | reflexivity].
Qed.

Lemma compare_same_head (c : ascii) (x y : string) :
  String.compare (String c x) (String c y) = String.compare x y.
Proof.
  simpl. unfold Ascii.compare. rewrite N.compare_refl. reflexivity.
Qed.

Lemma length_append (a b : string) :
  String.length (a +:+ b) = String.length a + String.length b.
Proof. induction a as [| c a IH]; simpl; [reflexivity | rewrite IH; reflexivity]. Qed.

Lemma length_pad w n : String.length (pad w n) = w.
Proof.
  revert n. induction w as [| w IH]; intros n; simpl; [reflexivity |].
  rewrite length_append, IH. simpl. lia.
Qed.

Lemma digit_compare (n m : Z) :
  Ascii.compare (digit n) (digit m) = (n mod 10 ?= m mod 10)%Z.
Proof.
  unfold digit.
  pose proof (Z.mod_pos_bound n 10 eq_refl) as Hn.
  pose proof (Z.mod_pos_bound m 10 eq_refl) as Hm.
  generalize dependent (n mod 10)%Z. generalize dependent (m mod 10)%Z.
  intros b Hb a Ha.
  assert (a = 0 ∨ a = 1 ∨ a = 2 ∨ a = 3 ∨ a = 4 ∨ a = 5 ∨ a = 6 ∨ a = 7
          ∨ a = 8 ∨ a = 9)%Z as Ea by lia.
  assert (b = 0 ∨ b = 1 ∨ b = 2 ∨ b = 3 ∨ b = 4 ∨ b = 5 ∨ b = 6 ∨ b = 7
          ∨ b = 8 ∨ b = 9)%Z as Eb by lia.
  clear Ha Hb.
  repeat (destruct Ea as [-> | Ea]); try subst a;
    repeat (destruct Eb as [-> | Eb]); try subst b; reflexivity.
Qed.

Lemma compare_decimal (n m : Z) :
  (n ?= m)%Z = lex (n / 10 ?= m / 10)%Z (n mod 10 ?= m mod 10)%Z.
Proof.
  pose proof (Z.div_mod n 10 ltac:(lia)) as Hn.
  pose proof (Z.div_mod m 10 ltac:(lia)) as Hm.
  pose proof (Z.mod_pos_bound n 10 eq_refl).
  pose proof (Z.mod_pos_bound m 10 eq_refl).
  unfold lex.
  destruct (Z.compare_spec (n / 10) (m / 10));
    destruct (Z.compare_spec (n mod 10) (m mod 10));
    destruct (Z.compare_spec n m); try reflexivity; lia.
Qed.

Lemma compare_pad w (n m : Z) :
  (0 <= n < 10 ^ Z.of_nat w)%Z → (0 <= m < 10 ^ Z.of_nat w)%Z →
  String.compare (pad w n) (pad w m) = (n ?= m)%Z.
Proof.
  revert n m. induction w as [| w IH]; intros n m Hn Hm.
  - simpl in *. assert (n = 0 ∧ m = 0)%Z as [-> ->] by lia. reflexivity.
  - simpl pad. rewrite compare_append_same_length by (rewrite !length_pad; reflexivity).
    rewrite Nat2Z.inj_succ, Z.pow_succ_r in Hn, Hm by lia.
    rewrite IH by (split; [apply Z.div_pos; lia | apply Z.div_lt_upper_bound; lia]).
    rewrite (compare_decimal n m). f_equal.
    simpl. rewrite digit_compare. destruct (n mod 10 ?= m mod 10)%Z; reflexivity.
Qed.

Lemma compare_pad_then w (n m : Z) (c : ascii) (x y : string) :
  (0 <= n < 10 ^ Z.of_nat w)%Z → (0 <= m < 10 ^ Z.of_nat w)%Z →
  String.compare (pad w n +:+ String c x) (pad w m +:+ String c y)
  = lex (n ?= m)%Z (String.compare x y).
Proof.
  intros Hn Hm.
  rewrite compare_append_same_length by (rewrite !length_pad; reflexivity).
  rewrite compare_pad, compare_same_head by assumption. reflexivity.
Qed.

Lemma append_cons (c : ascii) (x y : string) :
  String c x +:+ y = String c (x +:+ y).
Proof. reflexivity. Qed.

Lemma append_nil (y : string) : "" +:+ y = y.
Proof. reflexivity. Qed.

Lemma lex_eq_r (c : comparison) : lex c Eq = c.
Proof. destruct c; reflexivity. Qed.

Lemma compare_frac (a b : Z) :
  (0 <= a < 1000000)%Z → (0 <= b < 1000000)%Z →
  String.compare (frac a +:+ "+00:00") (frac b +:+ "+00:00") = (a ?= b)%Z.
Proof.
  intros Ha Hb. unfold frac.
  destruct (Z.eqb_spec a 0) as [-> | Na]; destruct (Z.eqb_spec b 0) as [-> | Nb].
  - reflexivity.
  - rewrite !append_cons, !append_nil. simpl String.compare.
    symmetry. apply Z.compare_lt_iff. lia.
  - rewrite !append_cons, !append_nil. simpl String.compare.
    symmetry. apply Z.compare_gt_iff. lia.
  - rewrite !append_cons, !append_nil, compare_same_head.
    rewrite compare_append_same_length by (rewrite !length_pad; reflexivity).
    rewrite compare_pad by (simpl; lia).
    change (String.compare "+00:00" "+00:00") with Eq. apply lex_eq_r.
Qed.

(** The ISO rendering orders valid timestamps as the clock does. *)
Lemma compare_isoformat (a b : datetime) :
  valid a → valid b →
  String.compare (isoformat a) (isoformat b) = compare a b.
Proof.
  intros (Hy & Hmo & Hd & Hh & Hmi & Hs & Hus) (Hy' & Hmo' & Hd' & Hh' & Hmi' & Hs' & Hus').
  unfold isoformat, compare. rewrite !append_cons, !append_nil.
  rewrite !compare_pad_then by (simpl; lia).
  rewrite compare_append_same_length by (rewrite !length_pad; reflexivity).
  rewrite compare_pad by (simpl; lia).
  rewrite compare_frac by assumption. reflexivity.
Qed.

End IsoformatOrder.

Section Ordering.

Context {T : Type}.

(** C5, as the code has it: two dispatches to one target, one after the
    other, record the renderings of the two clock readings they take, first
    one and then the other, and the recorded strings compare as the clock
    readings do.  The second recorded timestamp is therefore not smaller
    than the first exactly when the clock did not go back between the two
    dispatches; nothing in the dispatch compares the new reading with the
    recorded one. *)
Theorem sequential_dispatch_timestamps_follow_clock (cls : NotifyClass T)
    (kwargs1 kwargs2 : gmap string pyval) (now1 now2 : dt_util.datetime)
    (w : world T) :
  dt_util.valid now1 → dt_util.valid now2 →
  let w1 := run_operation cls (OpDispatch kwargs1 now1) w in
  let w2 := run_operation cls (OpDispatch kwargs2 now2) w1 in
  observable_state w1 = Some (dt_util.isoformat now1) ∧
  observable_state w2 = Some (dt_util.isoformat now2) ∧
  String.compare (dt_util.isoformat now1) (dt_util.isoformat now2)
    = dt_util.compare now1 now2 ∧
  (String.leb (dt_util.isoformat now1) (dt_util.isoformat now2) = true
   ↔ dt_util.le now1 now2) ∧
  (String.compare (dt_util.isoformat now1) (dt_util.isoformat now2) ≠ Gt
   ↔ dt_util.le now1 now2).
Proof.
  intros V1 V2 w1 w2.
  pose proof (compare_isoformat now1 now2 V1 V2) as Hc.
  split; [apply (observable_after_operation cls (OpDispatch kwargs1 now1) w) |].
  split; [apply (observable_after_operation cls (OpDispatch kwargs2 now2) w1) |].
  split; [exact Hc |].
  unfold String.leb, dt_util.le. rewrite Hc.
  split; [| reflexivity].
  destruct (dt_util.compare now1 now2); split; intros H;
    try reflexivity; try discriminate; congruence.
Qed.

End Ordering.

(** ** Validation of service calls *)

Lemma mapM_cv_string (l : list pyval) :
  mapM cv_string l = if forallb is_str l then Some l else None.
Proof.
  induction l as [| v l IH]; [reflexivity |].
  change (mapM cv_string (v :: l))
    with (cv_string v ≫= λ y, mapM cv_string l ≫= λ k, mret (y :: k)).
  rewrite IH. unfold cv_string. simpl.
  destruct (is_str v), (forallb is_str l); reflexivity.
Qed.

(** The validator of [recipients] passes exactly the lists of strings, and
    passes them unchanged. *)
Lemma recipients_validator (v : pyval) :
  vol_All cv_ensure_list (vol_list cv_string) v
  = if is_str_list v then Some v else None.
Proof.
  unfold vol_All, cv_ensure_list, vol_list, is_str_list.
  destruct v as [| b | z | s | l | d]; try reflexivity.
  simpl. rewrite mapM_cv_string. destruct (forallb is_str l); reflexivity.
Qed.

Lemma vol_Optional_test (key : string) (p : pyval → bool)
    (validator : pyval → option pyval) (data out : gmap string pyval) :
  (∀ v, validator v = if p v then Some v else None) →
  vol_Optional key validator data out
  = match data !! key with
    | None => Some out
    | Some v => if p v then Some (<[key := v]> out) else None
    end.
Proof.
  intros Hv. unfold vol_Optional. destruct (data !! key) as [v |]; [| reflexivity].
  rewrite Hv. destruct (p v); reflexivity.
Qed.

Lemma schema_unfold (data : gmap string pyval) :
  dom data ⊆ send_parameters →
  SERVICE_SEND_MESSAGE_SCHEMA data
  = (out1 ← match data !! "message" with
            | None => Some ∅
            | Some v => if is_str v then Some (<["message" := v]> ∅) else None
            end;
     out2 ← match data !! "title" with
            | None => Some out1
            | Some v => if is_str v then Some (<["title" := v]> out1) else None
            end;
     out3 ← match data !! "recipients" with
            | None => Some out2
            | Some v => if is_str_list v then Some (<["recipients" := v]> out2) else None
            end;
     match data !! "data" with
     | None => Some out3
     | Some v => if is_dict v then Some (<["data" := v]> out3) else None
     end).
Proof.
  intros Hd. unfold SERVICE_SEND_MESSAGE_SCHEMA.
  rewrite decide_True by exact Hd.
  unfold ATTR_MESSAGE, ATTR_TITLE, ATTR_RECIPIENTS, ATTR_DATA.
  rewrite (vol_Optional_test "message" is_str cv_string) by reflexivity.
  destruct (match data !! "message" with Some _ => _ | None => _ end) as [out1 |];
    [| reflexivity].
  simpl. rewrite (vol_Optional_test "title" is_str cv_string) by reflexivity.
  destruct (match data !! "title" with Some _ => _ | None => _ end) as [out2 |];
    [| reflexivity].
  simpl. rewrite (vol_Optional_test "recipients" is_str_list _ _ _ recipients_validator).
  destruct (match data !! "recipients" with Some _ => _ | None => _ end) as [out3 |];
    [| reflexivity].
  simpl. apply (vol_Optional_test "data" is_dict vol_dict). reflexivity.
Qed.

Lemma schema_accepts_iff (data : gmap string pyval) :
  dom data ⊆ send_parameters →
  is_Some (SERVICE_SEND_MESSAGE_SCHEMA data) ↔ well_typed data.
Proof.
  intros Hd. rewrite schema_unfold by exact Hd. unfold well_typed.
  destruct (data !! "message") as [v1 |]; [destruct (is_str v1) eqn:P1 |];
  (destruct (data !! "title") as [v2 |]; [destruct (is_str v2) eqn:P2 |]);
  (destruct (data !! "recipients") as [v3 |]; [destruct (is_str_list v3) eqn:P3 |]);
  (destruct (data !! "data") as [v4 |]; [destruct (is_dict v4) eqn:P4 |]);
  simpl; (split; [intros Hs | intros (H1 & H2 & H3 & H4)]);
  try (destruct Hs as [? Hs]; discriminate Hs);
  try (specialize (H1 _ eq_refl); rewrite P1 in H1; contradiction);
  try (specialize (H2 _ eq_refl); rewrite P2 in H2; contradiction);
  try (specialize (H3 _ eq_refl); rewrite P3 in H3; contradiction);
  try (specialize (H4 _ eq_refl); rewrite P4 in H4; contradiction);
  try (eexists; reflexivity);
  (repeat split; intros v Hv; try discriminate Hv;
   injection Hv as <-; rewrite ?P1, ?P2, ?P3, ?P4; exact I).
Qed.

(** What the schema passes on is the data of the call, unchanged. *)
Lemma schema_returns_data (data kw : gmap string pyval) :
  dom data ⊆ send_parameters →
  SERVICE_SEND_MESSAGE_SCHEMA data = Some kw → kw = data.
Proof.
  intros Hd. rewrite schema_unfold by exact Hd.
  assert (Hout : ∀ i, i ≠ "data" → i ≠ "recipients" → i ≠ "title" → i ≠ "message" →
                      data !! i = None).
  { intros i N4 N3 N2 N1. apply not_elem_of_dom. intros Hi. apply Hd in Hi.
    unfold send_parameters in Hi.
    rewrite !elem_of_union, !elem_of_singleton in Hi. tauto. }
  destruct (data !! "message") as [v1 |] eqn:E1; [destruct (is_str v1) |];
  (destruct (data !! "title") as [v2 |] eqn:E2; [destruct (is_str v2) |]);
  (destruct (data !! "recipients") as [v3 |] eqn:E3; [destruct (is_str_list v3) |]);
  (destruct (data !! "data") as [v4 |] eqn:E4; [destruct (is_dict v4) |]);
  simpl; intros Hs; try discriminate Hs; injection Hs as <-;
  (apply map_eq; intros i;
   destruct (decide (i = "data")) as [-> | N4]; [simplify_map_eq; done |];
   destruct (decide (i = "recipients")) as [-> | N3]; [simplify_map_eq; done |];
   destruct (decide (i = "title")) as [-> | N2]; [simplify_map_eq; done |];
   destruct (decide (i = "message")) as [-> | N1]; [simplify_map_eq; done |];
   rewrite (Hout i N4 N3 N2 N1); simplify_map_eq; done).
Qed.

Section ServiceFacts.

Context {T : Type}.

(** C8: for a call of [send_message] that carries, besides its target,
    only fields among [message], [title], [recipients] and [data], the
    schema accepts the call exactly when [message] and [title], where
    present, are strings, [recipients], where present, is a list of
    strings, and [data], where present, is a dictionary; the call with no
    field at all is accepted; an accepted call is passed on unchanged; and
    a call that is not well typed ends in [Invalid] with the registry as it
    was, whether or not its target is registered. *)
Theorem send_message_schema_validates (registry : gmap string (target T))
    (id : string) (data : gmap string pyval) (now : dt_util.datetime) :
  dom data ⊆ send_parameters →
  (is_Some (SERVICE_SEND_MESSAGE_SCHEMA data) ↔ well_typed data) ∧
  SERVICE_SEND_MESSAGE_SCHEMA ∅ = Some ∅ ∧
  (∀ kwargs, SERVICE_SEND_MESSAGE_SCHEMA data = Some kwargs → kwargs = data) ∧
  (¬ well_typed data →
   handle_send_message registry (mk_call id data) now = (Err Invalid, registry)).
Proof.
  intros Hd. split; [apply schema_accepts_iff, Hd |]. split; [reflexivity |].
  split; [intros kwargs; apply schema_returns_data, Hd |].
  intros Hn. unfold handle_send_message. simpl.
  destruct (SERVICE_SEND_MESSAGE_SCHEMA data) as [kw |] eqn:E; [| reflexivity].
  exfalso. apply Hn, schema_accepts_iff; [exact Hd | rewrite E; eauto].
Qed.

End ServiceFacts.

(** ** Instances *)

(** The spec's pager scenario: one registered target, one call with
    [message="hi"]: the call succeeds, the target carries the timestamp and
    the outbox holds exactly the one message. *)
Example pager_scenario :
  let registry : gmap string (target (list string)) :=
    {[ "pager" := mk_target pager_class idle_world ]} in
  let '(r, registry') := handle_send_message registry (mk_call "pager" hi_call) noon in
  r = Ok tt ∧
  (observable_state ∘ target_world <$> registry' !! "pager")
    = Some (Some "2024-05-01T12:00:00+00:00") ∧
  (transport ∘ target_world <$> registry' !! "pager") = Some ["hi"].
Proof. vm_compute. repeat split. Qed.

(** A call to an unknown target changes nothing. *)
Example unknown_target_scenario :
  let registry : gmap string (target (list string)) :=
    {[ "pager" := mk_target pager_class idle_world ]} in
  handle_send_message registry (mk_call "unknown" hi_call) noon
  = (Err TargetNotFound, registry).
Proof. vm_compute. reflexivity. Qed.

(** A call whose message is a list is refused before the target is looked
    up. *)
Example ill_typed_scenario :
  let registry : gmap string (target (list string)) :=
    {[ "pager" := mk_target pager_class idle_world ]} in
  handle_send_message registry
    (mk_call "unknown" {[ "message" := VList [VStr "hi"] ]}) noon
  = (Err Invalid, registry).
Proof. vm_compute. reflexivity. Qed.

(** The events of one dispatch to the pager, in order. *)
Example pager_dispatch_log :
  let job := mk_partial (bound_send_message pager_class)
               [VStr "hi"; VNone; VNone; VNone] in
  log (snd (run_to_completion
              (_async_send_message pager_class hi_call noon idle_world)))
  = [EvSetState (Some "2024-05-01T12:00:00+00:00");
     EvWriteState (Some "2024-05-01T12:00:00+00:00");
     EvSubmit job; EvRun job].
Proof. vm_compute. reflexivity. Qed.

(** The same dispatch to a class without send methods ends in
    [NotImplementedError], with the timestamp in place. *)
Example bare_dispatch_fails :
  let done := run_to_completion
                (_async_send_message bare_class hi_call noon idle_world) in
  fst done = Err NotImplementedError ∧
  observable_state (snd done) = Some "2024-05-01T12:00:00+00:00".
Proof. vm_compute. split; reflexivity. Qed.

Lemma hi_call_fields : dom hi_call ⊆ send_parameters.
Proof. compute_done. Qed.

Lemma hi_call_binds : bind_keywords hi_call = Ok (VStr "hi", VNone, VNone, VNone).
Proof.
  unfold bind_keywords. rewrite decide_True by exact hi_call_fields.
  reflexivity.
Qed.

Lemma hi_call_well_typed : well_typed hi_call.
Proof.
  unfold well_typed, hi_call. repeat split; intros v Hv.
  - rewrite lookup_singleton_eq in Hv. injection Hv as <-. exact I.
  - rewrite lookup_singleton_ne in Hv by discriminate. discriminate.
  - rewrite lookup_singleton_ne in Hv by discriminate. discriminate.
  - rewrite lookup_singleton_ne in Hv by discriminate. discriminate.
Qed.

(** C4, as stated, fails: the dispatch of ["hi"] to the pager has handed
    its job to the pool, nothing has reached the outbox, and the coroutine
    has not returned; what it does next is decided by the job's outcome. *)
Lemma dispatch_suspended_at_handoff :
  let c := _async_send_message pager_class hi_call noon idle_world in
  finished c ≠ true ∧
  last (log (reached c))
    = Some (EvSubmit (mk_partial (bound_send_message pager_class)
                        [VStr "hi"; VNone; VNone; VNone])) ∧
  transport (reached c) = [] ∧
  match c with
  | Await _ w k =>
      k (Err (TargetError "down")) w = Raise (TargetError "down") w ∧
      k (Ok tt) w = Return tt w
  | _ => False
  end.
Proof.
  intros c. subst c. unfold _async_send_message. cbv zeta.
  rewrite stamp_then_publish, hi_call_binds. simpl.
  split; [discriminate |]. split; [reflexivity |]. split; [reflexivity |].
  split; reflexivity.
Qed.

Lemma observable_state_never_resets_witness :
  observable_state idle_world = None ∧
  observable_state (run_operation pager_class (OpDispatch hi_call noon) idle_world)
    = Some "2024-05-01T12:00:00+00:00" ∧
  is_Some
    (observable_state
       (run_operations pager_class
          [OpReadState; OpAddedToHass None; OpSendMessage VNone VNone VNone VNone]
          (run_operation pager_class (OpDispatch hi_call noon) idle_world))).
Proof.
  assert (H : observable_state
                (run_operation pager_class (OpDispatch hi_call noon) idle_world)
              = Some "2024-05-01T12:00:00+00:00").
  { vm_compute. reflexivity. }
  split; [reflexivity |]. split; [exact H |].
  destruct (observable_state_never_resets pager_class
              (run_operation pager_class (OpDispatch hi_call noon) idle_world)
              None None [] [] hi_call noon
              [OpReadState; OpAddedToHass None; OpSendMessage VNone VNone VNone VNone]
              []) as (_ & _ & _ & _ & _ & _ & Hkeep).
  exact (proj2 (Hkeep "2024-05-01T12:00:00+00:00" H)).
Defined.

Lemma device_class_resolution_witness :
  let self :=
    run_dc_ops set_attr_device_class
      [DcRead; DcSetAttr (Some MESSAGE_NOTIFIER); DcRead; DcSetAttr None]
      (new_entity None (Some (mk_description (Some MESSAGE_NOTIFIER)))) in
  fst (device_class self) = None ∧ _attr_device_class self = Some None.
Proof.
  intros self.
  destruct (device_class_resolution set_attr_device_class
              set_attr_device_class_description set_attr_device_class_invalidates
              None (Some (mk_description (Some MESSAGE_NOTIFIER)))
              [DcRead; DcSetAttr (Some MESSAGE_NOTIFIER); DcRead; DcSetAttr None])
    as [_ H].
  fold self in H. split; [exact H | reflexivity].
Defined.

Lemma dispatch_awaits_completion_witness :
  override_async_send_message pager_class = None ∧
  bind_keywords hi_call = Ok (VStr "hi", VNone, VNone, VNone) ∧
  finished (_async_send_message pager_class hi_call noon idle_world) = false ∧
  fst (run_to_completion (_async_send_message pager_class hi_call noon idle_world))
    = Ok tt.
Proof.
  split; [reflexivity |]. split; [exact hi_call_binds |].
  destruct (dispatch_awaits_completion pager_class hi_call noon idle_world
              (VStr "hi") VNone VNone VNone eq_refl hi_call_binds)
    as (Hf & _ & Hr).
  split; [exact Hf | exact Hr].
Defined.

(** C5, as stated, fails: when the clock is set back a quarter of a second
    between two dispatches, the timestamp recorded by the later dispatch is
    smaller than the one recorded by the earlier dispatch. *)
Lemma dispatch_timestamps_decrease_when_clock_steps_back :
  let w1 := run_operation pager_class (OpDispatch hi_call just_past_noon) idle_world in
  let w2 := run_operation pager_class (OpDispatch hi_call noon) w1 in
  observable_state w1 = Some "2024-05-01T12:00:00.250000+00:00" ∧
  observable_state w2 = Some "2024-05-01T12:00:00+00:00" ∧
  String.leb "2024-05-01T12:00:00.250000+00:00" "2024-05-01T12:00:00+00:00" = false ∧
  ¬ (∃ s1 s2, observable_state w1 = Some s1 ∧ observable_state w2 = Some s2 ∧
              String.leb s1 s2 = true).
Proof.
  intros w1 w2.
  assert (H1 : observable_state w1 = Some "2024-05-01T12:00:00.250000+00:00")
    by (vm_compute; reflexivity).
  assert (H2 : observable_state w2 = Some "2024-05-01T12:00:00+00:00")
    by (vm_compute; reflexivity).
  split; [exact H1 |]. split; [exact H2 |]. split; [reflexivity |].
  intros (s1 & s2 & E1 & E2 & Hle).
  rewrite H1 in E1. rewrite H2 in E2.
  injection E1 as <-. injection E2 as <-. discriminate Hle.
Qed.

Lemma sequential_dispatch_timestamps_follow_clock_witness :
  dt_util.valid noon ∧ dt_util.valid just_past_noon ∧
  observable_state
    (run_operation pager_class (OpDispatch hi_call just_past_noon)
       (run_operation pager_class (OpDispatch hi_call noon) idle_world))
    = Some "2024-05-01T12:00:00.250000+00:00" ∧
  (String.leb "2024-05-01T12:00:00+00:00" "2024-05-01T12:00:00.250000+00:00" = true
   ↔ dt_util.le noon just_past_noon).
Proof.
  assert (V1 : dt_util.valid noon) by (unfold dt_util.valid; simpl; lia).
  assert (V2 : dt_util.valid just_past_noon) by (unfold dt_util.valid; simpl; lia).
  split; [exact V1 |]. split; [exact V2 |].
  destruct (sequential_dispatch_timestamps_follow_clock pager_class hi_call hi_call
              noon just_past_noon idle_world V1 V2) as (_ & H2 & _ & H4 & _).
  split; [exact H2 | exact H4].
Defined.

Lemma default_async_send_is_offloaded_send_witness :
  override_async_send_message pager_class = None ∧
  transport
    (snd (run_to_completion
            (async_send_message pager_class (VStr "hi") VNone VNone VNone idle_world)))
    = ["hi"] ∧
  fst (run_to_completion
         (async_send_message pager_class (VStr "hi") VNone VNone VNone idle_world))
    = Ok tt.
Proof.
  split; [reflexivity |].
  destruct (default_async_send_is_offloaded_send pager_class
              (VStr "hi") VNone VNone VNone idle_world eq_refl)
    as (_ & _ & Hr & Ht & _).
  split; [exact Ht | exact Hr].
Defined.

Lemma send_message_schema_validates_witness :
  dom hi_call ⊆ send_parameters ∧
  (is_Some (SERVICE_SEND_MESSAGE_SCHEMA hi_call) ↔ well_typed hi_call) ∧
  well_typed hi_call.
Proof.
  split; [exact hi_call_fields |].
  destruct (send_message_schema_validates (∅ : gmap string (target (list string)))
              "pager" hi_call noon hi_call_fields) as (Hiff & _ & _ & _).
  split; [exact Hiff | exact hi_call_well_typed].
Defined.

(** * Further properties of the code *)

(** ** Dispatch: edges, frames and sequences *)

Section DispatchMore.

Context {T : Type}.
Implicit Types (cls : NotifyClass T) (w : world T) (now : dt_util.datetime).

Lemma bind_keywords_ok (kwargs : gmap string pyval) :
  dom kwargs ⊆ send_parameters →
  bind_keywords kwargs
  = Ok (default VNone (kwargs !! "message"), default VNone (kwargs !! "title"),
        default VNone (kwargs !! "recipients"), default VNone (kwargs !! "data")).
Proof. intros H. unfold bind_keywords. rewrite decide_True by exact H. reflexivity. Qed.

Lemma bind_keywords_unknown (kwargs : gmap string pyval) :
  ¬ dom kwargs ⊆ send_parameters → bind_keywords kwargs = Err TypeError.
Proof. intros H. unfold bind_keywords. rewrite decide_False by exact H. reflexivity. Qed.

(** A dispatch called with a keyword that [async_send_message] does not
    take raises [TypeError] without suspending and without any send event,
    but only after it has stamped the entity and published the stamp. *)
Theorem dispatch_unknown_keyword cls (kwargs : gmap string pyval) now w :
  ¬ dom kwargs ⊆ send_parameters →
  let ts := Some (dt_util.isoformat now) in
  let c := _async_send_message cls kwargs now w in
  finished c = true ∧
  fst (run_to_completion c) = Err TypeError ∧
  log (snd (run_to_completion c)) = log w ++ [EvSetState ts; EvWriteState ts] ∧
  transport (snd (run_to_completion c)) = transport w ∧
  observable_state (snd (run_to_completion c)) = ts.
Proof.
  intros H ts c. subst c. unfold _async_send_message. cbv zeta. fold ts.
  rewrite stamp_then_publish, (bind_keywords_unknown kwargs H). simpl.
  repeat split.
Qed.

(** *** Sequences of dispatches *)

Lemma runs_app (l1 l2 : list (event T)) : runs (l1 ++ l2) = runs l1 ++ runs l2.
Proof. apply flat_map_app. Qed.

Lemma published_app (l1 l2 : list (event T)) :
  published (l1 ++ l2) = published l1 ++ published l2.
Proof. apply flat_map_app. Qed.

Lemma published_sends (l : list (event T)) :
  forallb is_send_event l = true → published l = [].
Proof.
  induction l as [| ev l IH]; [reflexivity |]. simpl.
  destruct ev; simpl; try discriminate; exact IH.
Qed.

(** One dispatch on the default path, run with the pool, in closed form. *)
Lemma run_default_dispatch cls (kwargs : gmap string pyval) now w :
  override_async_send_message cls = None →
  dom kwargs ⊆ send_parameters →
  let ts := Some (dt_util.isoformat now) in
  let job := mk_partial (bound_send_message cls) (keyword_arguments kwargs) in
  run_to_completion (_async_send_message cls kwargs now w)
  = (fst (bound_send_message cls (keyword_arguments kwargs) (transport w)),
     mk_world (with_cache_state (Some ts) (__set_state ts (entity w)))
       (snd (bound_send_message cls (keyword_arguments kwargs) (transport w)))
       (log w ++ [EvSetState ts; EvWriteState ts; EvSubmit job; EvRun job])).
Proof.
  intros Ho Hd ts job.
  rewrite run_dispatch_unfold. cbv zeta. fold ts.
  rewrite stamp_then_publish, (bind_keywords_ok kwargs Hd).
  rewrite run_default_async_send by exact Ho.
  unfold spec_offload_send_message, keyword_arguments in *. simpl.
  rewrite bound_send_message_four. fold job.
  destruct (send_message cls _ _ _ _ (transport w)) as [res tr]. simpl.
  rewrite <- !app_assoc. reflexivity.
Qed.

(** A sequence of dispatches on the default path runs [send_message] once
    per dispatch, on the arguments of that dispatch and in the order of the
    dispatches, whatever the earlier sends returned or raised: equal
    dispatches are not merged and a failure stops nothing.  Each dispatch
    publishes its own timestamp once. *)
Theorem dispatch_sequence cls
    (ds : list (gmap string pyval * dt_util.datetime)) w :
  override_async_send_message cls = None →
  Forall (fun d => dom (fst d) ⊆ send_parameters) ds →
  let w' := run_operations cls (dispatches ds) w in
  runs (log w') = runs (log w) ++ map (fun d => keyword_arguments (fst d)) ds ∧
  transport w' = deliver cls (map (fun d => keyword_arguments (fst d)) ds) (transport w) ∧
  published (log w') = published (log w) ++ map (fun d => Some (dt_util.isoformat (snd d))) ds.
Proof.
  intros Ho Hds. revert w. induction Hds as [| [kwargs now] ds Hd _ IH]; intros w.
  - simpl. rewrite !app_nil_r. auto.
  - cbv zeta.
    change (run_operations cls (dispatches ((kwargs, now) :: ds)) w)
      with (run_operations cls (dispatches ds)
              (snd (run_to_completion (_async_send_message cls kwargs now w)))).
    destruct (IH (snd (run_to_completion (_async_send_message cls kwargs now w))))
      as (H1 & H2 & H3).
    rewrite H1, H2, H3. clear H1 H2 H3 IH.
    rewrite (run_default_dispatch cls kwargs now w Ho Hd). simpl.
    rewrite runs_app, published_app. simpl.
    rewrite <- !app_assoc. auto.
Qed.

(** *** The published state is the state *)

Lemma publication_invariant_step cls op w :
  publication_invariant w → publication_invariant (run_operation cls op w).
Proof.
  intros [Hc Hp]. unfold publication_invariant.
  destruct op as [kwargs now | m t r d | m t r d | | | | | last']; simpl.
  - rewrite run_dispatch_entity.
    split; [right; reflexivity |].
    rewrite run_dispatch_unfold. cbv zeta. rewrite stamp_then_publish.
    destruct (bind_keywords kwargs) as [[[[m t] r] d] | e].
    + match goal with |- context [async_send_message cls m t r d ?w2] =>
        destruct (run_async_send_shape cls m t r d w2) as [_ (sends & Hl & _ & Hs)]
      end.
      simpl in Hl. rewrite Hl, !published_app, (published_sends sends Hs), app_nil_r.
      simpl. rewrite last_snoc. reflexivity.
    + simpl. rewrite published_app. simpl. rewrite last_snoc. reflexivity.
  - destruct (run_async_send_shape cls m t r d w) as [He (sends & Hl & _ & Hs)].
    simpl in He, Hl. rewrite He, Hl, published_app, (published_sends sends Hs), app_nil_r.
    split; assumption.
  - split; assumption.
  - split; [apply state_read_coherent, Hc | rewrite state_read_field; exact Hp].
  - destruct (entity w) as [attr desc lst [cdc |] cs]; split; assumption.
  - unfold _default_to_device_class_name.
    destruct (entity w) as [attr desc lst [cdc |] cs]; split; assumption.
  - unfold async_write_ha_state.
    pose proof (state_coherent_read _ Hc) as Hr.
    pose proof (state_read_coherent _ Hc) as Hc'.
    pose proof (state_read_field (entity w)) as Hf.
    destruct (state (entity w)) as [s e']. simpl in *.
    split; [exact Hc' |]. rewrite published_app. simpl. rewrite last_snoc.
    congruence.
  - split; assumption.
Qed.

(** From a new entity and an empty log, after any sequence of operations,
    the [state] property returns the private last-notified field, and the
    state published last is that same value; as long as nothing has been
    published the entity has no state. *)
Theorem published_state_is_state cls (ops : list operation)
    (attr : option (option NotifyDeviceClass))
    (desc : option NotifyEntityDescription) (tr : T) :
  let w := run_operations cls ops (mk_world (new_entity attr desc) tr []) in
  observable_state w = __last_notified_isoformat (entity w) ∧
  match last (published (log w)) with
  | Some s => s = observable_state w
  | None => observable_state w = None
  end.
Proof.
  intros w.
  assert (Hinv : ∀ ops' w0, publication_invariant w0 →
                            publication_invariant (run_operations cls ops' w0)).
  { induction ops' as [| op ops' IH]; intros w0 H0; [exact H0 |].
    apply (IH (run_operation cls op w0)), publication_invariant_step, H0. }
  destruct (Hinv ops (mk_world (new_entity attr desc) tr []))
    as [Hc Hp]; [split; [left |]; reflexivity |].
  fold w in Hc, Hp. unfold observable_state.
  rewrite (state_coherent_read _ Hc). split; [reflexivity | exact Hp].
Qed.

(** *** Overlapping dispatches *)

(** On the default path, when a second dispatch runs while the first is
    suspended at its hand-off and the pool runs the first job last, both
    timestamps are published in the order of the dispatches and the state
    at the end is the second timestamp: the resumed first dispatch writes
    nothing.  The sends, however, reach the transport in the order the pool
    ran them, second before first. *)
Theorem overlapping_dispatches cls
    (kwargs1 kwargs2 : gmap string pyval) (now1 now2 : dt_util.datetime) w :
  override_async_send_message cls = None →
  dom kwargs1 ⊆ send_parameters →
  dom kwargs2 ⊆ send_parameters →
  let a1 := keyword_arguments kwargs1 in
  let a2 := keyword_arguments kwargs2 in
  let tr2 := snd (bound_send_message cls a2 (transport w)) in
  ∃ w',
    overlapped cls kwargs1 now1 kwargs2 now2 w
    = Some (fst (bound_send_message cls a1 tr2),
            fst (bound_send_message cls a2 (transport w)), w') ∧
    observable_state w' = Some (dt_util.isoformat now2) ∧
    published (log w')
    = published (log w) ++ [Some (dt_util.isoformat now1); Some (dt_util.isoformat now2)] ∧
    runs (log w') = runs (log w) ++ [a2; a1] ∧
    transport w' = deliver cls [a2; a1] (transport w).
Proof.
  intros Ho H1 H2 a1 a2 tr2. unfold overlapped.
  unfold _async_send_message at 1. cbv zeta.
  rewrite stamp_then_publish, (bind_keywords_ok kwargs1 H1).
  unfold async_send_message at 1. rewrite Ho.
  unfold NotifyEntity_async_send_message, await_executor_job.
  cbn [bind emit entity transport log].
  rewrite (run_default_dispatch cls kwargs2 now2 _ Ho H2).
  cbn [fst snd entity transport log]. unfold run_job.
  cbn [emit entity transport log partial_func partial_args].
  fold a2. fold tr2.
  change [default VNone (kwargs1 !! "message"); default VNone (kwargs1 !! "title");
          default VNone (kwargs1 !! "recipients"); default VNone (kwargs1 !! "data")]
    with a1.
  destruct (bound_send_message cls a1 tr2) as [[[] | e] tr1] eqn:E1;
    cbn [bind run_to_completion fst snd];
    (eexists; split; [reflexivity |]);
    (split; [reflexivity |]);
    cbn [log transport];
    rewrite !published_app, !runs_app; cbn [published runs flat_map app partial_args];
    rewrite ?app_nil_r; unfold deliver; cbn [fold_left]; fold tr2;
    rewrite E1, <- ?app_assoc; auto.
Qed.

(** *** Distinct instants, distinct states *)

Lemma string_compare_refl (s : string) : String.compare s s = Eq.
Proof.
  induction s as [| c s IH]; [reflexivity |]. simpl.
  unfold Ascii.compare. rewrite N.compare_refl. exact IH.
Qed.

Lemma lex_eq (c1 c2 : comparison) : dt_util.lex c1 c2 = Eq → c1 = Eq ∧ c2 = Eq.
Proof. destruct c1; simpl; intros H; try discriminate; auto. Qed.

Lemma datetime_compare_eq (a b : dt_util.datetime) :
  dt_util.compare a b = Eq → a = b.
Proof.
  unfold dt_util.compare. intros H.
  repeat (apply lex_eq in H; destruct H as [?%Z.compare_eq H]).
  apply Z.compare_eq in H.
  destruct a, b; simpl in *; congruence.
Qed.

(** The rendering of valid UTC instants is one to one. *)
Lemma isoformat_injective (a b : dt_util.datetime) :
  dt_util.valid a → dt_util.valid b →
  dt_util.isoformat a = dt_util.isoformat b → a = b.
Proof.
  intros Va Vb H. apply datetime_compare_eq.
  rewrite <- (compare_isoformat a b Va Vb), H. apply string_compare_refl.
Qed.

(** The state a dispatch leaves identifies the instant of the dispatch:
    two dispatches, to the same or to different targets and with whatever
    arguments, leave the same state exactly when they read the same clock
    value. *)
Theorem dispatch_states_identify_instants cls cls'
    (kwargs kwargs' : gmap string pyval) (now now' : dt_util.datetime) w w' :
  dt_util.valid now → dt_util.valid now' →
  observable_state (run_operation cls (OpDispatch kwargs now) w)
  = observable_state (run_operation cls' (OpDispatch kwargs' now') w')
  ↔ now = now'.
Proof.
  intros V V'. rewrite !observable_after_operation. split.
  - intros H. apply isoformat_injective; [exact V | exact V' | congruence].
  - intros ->. reflexivity.
Qed.

End DispatchMore.

(** ** Naming by device class *)

Section DefaultName.

Variable assign_attr : option NotifyDeviceClass → NotifyEntity → NotifyEntity.
Hypothesis assign_attr_description :
  ∀ v self, entity_description (assign_attr v self) = entity_description self.
Hypothesis assign_attr_invalidates :
  ∀ v self, assign_attr v self = self ∨ cache_device_class (assign_attr v self) = None.

(** On every entity, a stale cache slot included,
    [_default_to_device_class_name] answers [True] exactly when
    [device_class] returns a class, and leaves the entity as that read of
    [device_class] does.  Hence, on an entity whose description is fixed at
    construction, after any reads of [device_class] and assignments to
    [_attr_device_class] that keep the setter's contract, it answers [True]
    exactly when the override exists and is a class, or does not exist
    while the description has a class: an override that is [None] turns the
    default name off even when the description has a class. *)
Theorem default_name_follows_device_class (e : NotifyEntity)
    (attr : option (option NotifyDeviceClass))
    (desc : option NotifyEntityDescription) (ops : list dc_op) :
  fst (_default_to_device_class_name e)
    = match fst (device_class e) with Some _ => true | None => false end ∧
  snd (_default_to_device_class_name e) = snd (device_class e) ∧
  let self := run_dc_ops assign_attr ops (new_entity attr desc) in
  fst (_default_to_device_class_name self) =
    match _attr_device_class self with
    | Some (Some _) => true
    | Some None => false
    | None =>
        match desc with
        | Some (mk_description (Some _)) => true
        | _ => false
        end
    end ∧
  snd (_default_to_device_class_name self) = snd (device_class self).
Proof.
  assert (Hgen : ∀ e0, fst (_default_to_device_class_name e0)
                       = match fst (device_class e0) with Some _ => true | None => false end
                       ∧ snd (_default_to_device_class_name e0) = snd (device_class e0)).
  { intros e0. unfold _default_to_device_class_name.
    destruct (device_class e0) as [dc e1]. split; reflexivity. }
  split; [apply Hgen |]. split; [apply Hgen |].
  intros self.
  destruct (run_dc_ops_invariant assign_attr assign_attr_description
              assign_attr_invalidates ops (new_entity attr desc)) as [Hc Hd];
    [left; reflexivity |].
  fold self in Hc, Hd. simpl in Hd.
  destruct (Hgen self) as [H1 H2]. split; [| exact H2].
  rewrite H1, (dc_coherent_read self Hc).
  unfold device_class_body. rewrite Hd.
  destruct (_attr_device_class self) as [[c |] |]; try reflexivity.
  destruct desc as [[[c |]] |]; reflexivity.
Qed.

End DefaultName.

(** ** The device-class schema *)

Lemma ascii_lower_idempotent (c : ascii) : ascii_lower (ascii_lower c) = ascii_lower c.
Proof. destruct c as [[] [] [] [] [] [] [] []]; reflexivity. Qed.

Lemma str_lower_idempotent (s : string) : str_lower (str_lower s) = str_lower s.
Proof.
  induction s as [| c s IH]; [reflexivity |].
  simpl. rewrite ascii_lower_idempotent, IH. reflexivity.
Qed.

Lemma length_str_lower (s : string) : String.length (str_lower s) = String.length s.
Proof. induction s as [| c s IH]; [reflexivity | simpl; rewrite IH; reflexivity]. Qed.

(** [DEVICE_CLASSES_SCHEMA] sends the value of every member back to the
    member, does not look at the case of letters, and accepts a string
    exactly when its lower-case form is the value of the member it returns;
    an accepted string has the sixteen characters of ["message_notifier"]. *)
Theorem device_classes_schema_round_trip (s : string) (c : NotifyDeviceClass) :
  DEVICE_CLASSES_SCHEMA (NotifyDeviceClass_value c) = Some c ∧
  DEVICE_CLASSES_SCHEMA (str_lower s) = DEVICE_CLASSES_SCHEMA s ∧
  (DEVICE_CLASSES_SCHEMA s = Some c ↔ str_lower s = NotifyDeviceClass_value c) ∧
  (is_Some (DEVICE_CLASSES_SCHEMA s) ↔ str_lower s = "message_notifier") ∧
  match DEVICE_CLASSES_SCHEMA s with
  | Some _ => String.length s = 16
  | None => str_lower s ≠ "message_notifier"
  end.
Proof.
  unfold DEVICE_CLASSES_SCHEMA, vol_Coerce, vol_Lower, NotifyDeviceClass_of_value.
  rewrite str_lower_idempotent. destruct c. simpl NotifyDeviceClass_value.
  split; [reflexivity |]. split; [reflexivity |].
  destruct (decide (str_lower s = "message_notifier")) as [E | N].
  - split; [tauto |]. split; [split; eauto |].
    rewrite <- (length_str_lower s), E. reflexivity.
  - split; [split; [discriminate | contradiction] |].
    split; [split; [intros [? ?]; discriminate | contradiction] | exact N].
Qed.

(** ** The platform schema *)

Section PlatformSchemaFacts.

Variables (CONF_PLATFORM CONF_NAME : string).
Variable string_validator : pyval → option pyval.
Hypothesis keys_differ : CONF_PLATFORM ≠ CONF_NAME.

(** [PLATFORM_SCHEMA] refuses a configuration without a platform, accepts
    one exactly when the platform is accepted by the string validator and
    the name, if there is one, is too, and then returns the configuration
    with those two values validated and every other entry as it was. *)
Theorem platform_schema_requires_platform (data : gmap string pyval) :
  (data !! CONF_PLATFORM = None →
   PLATFORM_SCHEMA CONF_PLATFORM CONF_NAME string_validator data = None) ∧
  (is_Some (PLATFORM_SCHEMA CONF_PLATFORM CONF_NAME string_validator data) ↔
   (∃ p, data !! CONF_PLATFORM = Some p ∧ is_Some (string_validator p)) ∧
   (∀ n, data !! CONF_NAME = Some n → is_Some (string_validator n))) ∧
  (∀ out, PLATFORM_SCHEMA CONF_PLATFORM CONF_NAME string_validator data = Some out →
     dom out = dom data ∧
     out !! CONF_PLATFORM = data !! CONF_PLATFORM ≫= string_validator ∧
     out !! CONF_NAME = data !! CONF_NAME ≫= string_validator ∧
     ∀ k, k ≠ CONF_PLATFORM → k ≠ CONF_NAME → out !! k = data !! k).
Proof.
  unfold PLATFORM_SCHEMA, vol_Required, vol_Optional.
  destruct (data !! CONF_PLATFORM) as [p |] eqn:Ep; simpl.
  2:{ split; [reflexivity |]. split; [| discriminate].
      split; [intros [? ?]; discriminate | intros [(p & Hp & _) _]; discriminate]. }
  split; [discriminate |].
  destruct (string_validator p) as [p' |] eqn:Vp; simpl.
  2:{ split; [| discriminate].
      split; [intros [? ?]; discriminate |].
      intros [(q & Hq & [? Hs]) _]. congruence. }
  destruct (data !! CONF_NAME) as [n |] eqn:En; simpl.
  2:{ split; [split; [intros _; split; [eauto | discriminate] | eauto] |].
      intros out [= <-]. split; [| split; [| split]].
      - apply dom_insert_lookup_L. eauto.
      - apply lookup_insert_eq.
      - rewrite lookup_insert_ne by exact keys_differ. exact En.
      - intros k Hk _. apply lookup_insert_ne. congruence. }
  destruct (string_validator n) as [n' |] eqn:Vn; simpl.
  2:{ split; [| discriminate].
      split; [intros [? ?]; discriminate |].
      intros [_ Hn]. destruct (Hn n eq_refl) as [? Hs]. congruence. }
  split.
  - split; [intros _; split; [eauto |] | eauto].
    intros n0 [= <-]. rewrite Vn. eauto.
  - intros out [= <-]. split; [| split; [| split]].
    + rewrite dom_insert_lookup_L
        by (rewrite lookup_insert_ne by exact keys_differ; eauto).
      apply dom_insert_lookup_L. eauto.
    + rewrite lookup_insert_ne by congruence. apply lookup_insert_eq.
    + apply lookup_insert_eq.
    + intros k Hp Hn. rewrite !lookup_insert_ne by congruence. reflexivity.
Qed.

End PlatformSchemaFacts.

(** ** The persistent-notification handler *)

Section PersistentNotificationFacts.

Variable Template : Type.
Variable async_render : Template → option string.
Variable ATTR_NOTIFICATION_ID : string.

Local Abbreviation handler :=
  (persistent_notification Template async_render ATTR_NOTIFICATION_ID).
Local Abbreviation id_of := (notification_id_of ATTR_NOTIFICATION_ID).

(** The identifier of the notification is the entry of the data under the
    identifier key: a call without data, with empty data or with data that
    lacks the key gets [None], and the emptiness test never hides an entry
    that is there. *)
Theorem notification_id_from_data (d : gmap string pyval) :
  id_of None = VNone ∧
  id_of (Some ∅) = VNone ∧
  id_of (Some d) = default VNone (d !! ATTR_NOTIFICATION_ID).
Proof.
  split; [reflexivity |]. split; [reflexivity |].
  unfold notification_id_of. destruct (decide (size d = 0)) as [E | N]; [| reflexivity].
  apply map_size_empty_iff in E. subst d. rewrite lookup_empty. reflexivity.
Qed.

(** The handler creates one notification when it returns and none when it
    raises.  It returns exactly when the call has a message and every
    template it has renders; the notification then carries the rendered
    message, the rendered title ([None] without a title) and the identifier
    from the data, and creating it is the last thing the handler does.  It
    raises [KeyError] for a call without message, before anything else
    happens. *)
Theorem persistent_notification_creates_once (call : NotifyServiceData Template) :
  match fst (handler call) with
  | inr _ =>
      ∃ m text,
        sd_message call = Some m ∧ async_render m = Some text ∧
        (∀ t, sd_title call = Some t → is_Some (async_render t)) ∧
        creations (snd (handler call))
        = [(text, sd_title call ≫= async_render, id_of (sd_data call))] ∧
        last (snd (handler call))
        = Some (PnCreate text (sd_title call ≫= async_render) (id_of (sd_data call)))
  | inl (KeyError k) =>
      k = ATTR_MESSAGE ∧ sd_message call = None ∧ snd (handler call) = []
  | inl TemplateError =>
      creations (snd (handler call)) = [] ∧
      ∃ m, sd_message call = Some m ∧
           (async_render m = None ∨
            ∃ t, sd_title call = Some t ∧ async_render t = None)
  end.
Proof.
  unfold persistent_notification.
  destruct (sd_message call) as [m |] eqn:Em; [| simpl; auto].
  destruct (sd_title call) as [t |] eqn:Et.
  - destruct (async_render t) as [title |] eqn:Rt.
    + destruct (async_render m) as [text |] eqn:Rm; simpl.
      * exists m, text. rewrite Rt.
        split; [reflexivity |]. split; [exact Rm |].
        split; [intros t' [= <-]; rewrite Rt; eauto |]. split; reflexivity.
      * split; [reflexivity |]. exists m. split; [reflexivity | left; exact Rm].
    + simpl. split; [reflexivity |].
      exists m. split; [reflexivity | right; exists t; auto].
  - destruct (async_render m) as [text |] eqn:Rm; simpl.
    + exists m, text. split; [reflexivity |]. split; [exact Rm |].
      split; [discriminate |]. split; reflexivity.
    + split; [reflexivity |]. exists m. split; [reflexivity | left; exact Rm].
Qed.

End PersistentNotificationFacts.

(** ** The Ender connector *)

Section EnderFacts.

Import ender_connector config_flow.

Variable py_format : pyval → string.

Lemma run_forever_registered (url : string) (events : list socket_event) :
  let app := mk_app url (Some _on_open) (Some _on_message) (Some _on_error)
               (Some _on_close) in
  run_forever app events
  = (existsb is_closed events,
     repeat "Hello, Server!" (length (List.filter is_opened (before_close events)))).
Proof.
  intros app. induction events as [| ev events IH]; [reflexivity |].
  simpl. destruct ev as [| m | e | c m]; simpl; try rewrite IH; reflexivity.
Qed.

(** [setup] registers the four handlers on a socket for ["ws://<host>/"]
    and runs it: it returns exactly when the socket closes, and until then
    it sends one greeting for every time the socket opens and nothing else,
    so nothing at all in answer to a message, an error or the close. *)
Theorem setup_greets_once_per_open (self : EnderConnector) (host : pyval)
    (events : list socket_event) :
  setup py_format self host events
  = (mk_connector
       (Some (mk_app ("ws://" +:+ py_format host +:+ "/") (Some _on_open)
                (Some _on_message) (Some _on_error) (Some _on_close))),
     existsb is_closed events,
     repeat "Hello, Server!" (length (List.filter is_opened (before_close events)))).
Proof.
  unfold setup. cbn [ws_url on_message on_error on_close].
  rewrite run_forever_registered. reflexivity.
Qed.

(** ** The configuration flow *)

Variable CONF_HOST : string.
Variable R : Type.
Variable async_show_form : string → (gmap string pyval → option (gmap string pyval)) → R.

Local Abbreviation step := (async_step_user CONF_HOST R async_show_form py_format).
Local Abbreviation form := (async_show_form "user" (schema CONF_HOST)).

Lemma host_schema_inv (data out : gmap string pyval) :
  schema CONF_HOST data = Some out →
  ∃ h, data = {[ CONF_HOST := VStr h ]} ∧ out = data.
Proof.
  unfold schema, vol_Required, vol_str.
  destruct (decide (dom data ⊆ {[CONF_HOST]})) as [Hd | ]; [| discriminate].
  destruct (data !! CONF_HOST) as [v |] eqn:E; [| discriminate].
  destruct v as [| b | z | h | l | d]; try discriminate.
  simpl. intros [= <-]. exists h.
  assert (Hdata : data = {[CONF_HOST := VStr h]}).
  { apply map_eq. intros k. destruct (decide (k = CONF_HOST)) as [-> | N].
    - rewrite lookup_singleton_eq. exact E.
    - rewrite lookup_singleton_ne by congruence.
      apply not_elem_of_dom. intros Hk. apply Hd in Hk.
      apply elem_of_singleton in Hk. contradiction. }
  split; [exact Hdata |]. rewrite Hdata. apply insert_empty.
Qed.

Lemma host_schema_singleton (h : string) :
  schema CONF_HOST {[ CONF_HOST := VStr h ]} = Some {[ CONF_HOST := VStr h ]}.
Proof.
  unfold schema, vol_Required, vol_str.
  rewrite decide_True by (rewrite dom_singleton_L; reflexivity).
  rewrite lookup_singleton_eq. simpl. rewrite insert_empty. reflexivity.
Qed.

(** The form's schema accepts exactly the dictionaries that hold a string
    under the host key and nothing else, and returns them unchanged. *)
Theorem host_schema_accepts (data out : gmap string pyval) :
  schema CONF_HOST data = Some out ↔
  ∃ h, data = {[ CONF_HOST := VStr h ]} ∧ out = data.
Proof.
  split; [apply host_schema_inv |].
  intros (h & -> & ->). apply host_schema_singleton.
Qed.

(** A step with a host, in closed form. *)
Lemma step_with_host (self : ConfigFlow) (input : gmap string pyval)
    (host : pyval) (events : list socket_event) :
  input !! CONF_HOST = Some host →
  step self (Some input) events
  = (mk_flow (Some host),
     if existsb is_closed events then StepReturned form else StepBlocked,
     repeat "Hello, Server!" (length (List.filter is_opened (before_close events)))).
Proof.
  intros H. unfold async_step_user, setup. rewrite H.
  cbn [ws_url on_message on_error on_close].
  rewrite run_forever_registered.
  destruct (existsb is_closed events); reflexivity.
Qed.

(** Whatever the input and whatever the socket does, a call of the step
    never finishes the flow: it returns the form of the step ["user"]
    again, it raises [KeyError], or it has not returned.  Without input it
    returns the form at once and touches neither the flow nor the network.
    With input that has no host it raises [KeyError] and does nothing else.
    With a host it stores the host and runs the connector: it returns the
    form only once the socket has closed, after one greeting per opening of
    the socket. *)
Theorem step_user_only_shows_form (self : ConfigFlow)
    (user_input : option (gmap string pyval)) (events : list socket_event) :
  match user_input with
  | None => step self None events = (self, StepReturned form, [])
  | Some input =>
      match input !! CONF_HOST with
      | None => step self (Some input) events = (self, StepRaised (KeyError CONF_HOST), [])
      | Some host =>
          step self (Some input) events
          = (mk_flow (Some host),
             if existsb is_closed events then StepReturned form else StepBlocked,
             repeat "Hello, Server!"
               (length (List.filter is_opened (before_close events))))
      end
  end.
Proof.
  destruct user_input as [input |]; [| reflexivity].
  destruct (input !! CONF_HOST) as [host |] eqn:E.
  - apply step_with_host, E.
  - unfold async_step_user. rewrite E. reflexivity.
Qed.


End EnderFacts.

(** ** Further instances *)

Lemma bye_call_fields : dom bye_call ⊆ send_parameters.
Proof. compute_done. Qed.

Lemma subject_call_unknown : ¬ dom subject_call ⊆ send_parameters.
Proof. compute_done. Qed.

Lemma dispatch_unknown_keyword_witness :
  ¬ dom subject_call ⊆ send_parameters ∧
  fst (run_to_completion (_async_send_message pager_class subject_call noon idle_world))
    = Err TypeError ∧
  transport (snd (run_to_completion
                    (_async_send_message pager_class subject_call noon idle_world)))
    = [] ∧
  observable_state
    (snd (run_to_completion
            (_async_send_message pager_class subject_call noon idle_world)))
    = Some "2024-05-01T12:00:00+00:00".
Proof.
  split; [exact subject_call_unknown |].
  destruct (dispatch_unknown_keyword pager_class subject_call noon idle_world
              subject_call_unknown) as (_ & Hr & _ & Ht & Hs).
  split; [exact Hr |]. split; [exact Ht | exact Hs].
Defined.

Lemma dispatch_sequence_witness :
  override_async_send_message pager_class = None ∧
  Forall (fun d => dom (fst d) ⊆ send_parameters)
    [(hi_call, noon); (hi_call, just_past_noon)] ∧
  transport
    (run_operations pager_class
       (dispatches [(hi_call, noon); (hi_call, just_past_noon)]) idle_world)
    = ["hi"; "hi"].
Proof.
  assert (F : Forall (fun d : gmap string pyval * dt_util.datetime =>
                        dom (fst d) ⊆ send_parameters)
                [(hi_call, noon); (hi_call, just_past_noon)])
    by (repeat constructor; exact hi_call_fields).
  split; [reflexivity |]. split; [exact F |].
  destruct (dispatch_sequence pager_class
              [(hi_call, noon); (hi_call, just_past_noon)] idle_world eq_refl F)
    as (_ & Ht & _).
  rewrite Ht. vm_compute. reflexivity.
Defined.

Lemma overlapping_dispatches_witness :
  override_async_send_message pager_class = None ∧
  dom hi_call ⊆ send_parameters ∧ dom bye_call ⊆ send_parameters ∧
  ∃ w',
    overlapped pager_class hi_call noon bye_call just_past_noon idle_world
    = Some (Ok tt, Ok tt, w') ∧
    observable_state w' = Some "2024-05-01T12:00:00.250000+00:00" ∧
    transport w' = ["bye"; "hi"].
Proof.
  split; [reflexivity |]. split; [exact hi_call_fields |].
  split; [exact bye_call_fields |].
  destruct (overlapping_dispatches pager_class hi_call bye_call noon just_past_noon
              idle_world eq_refl hi_call_fields bye_call_fields)
    as (w' & Ho & Hs & _ & _ & Ht).
  exists w'. split; [exact Ho |]. split; [exact Hs |].
  rewrite Ht. vm_compute. reflexivity.
Defined.

Lemma dispatch_states_identify_instants_witness :
  dt_util.valid noon ∧ dt_util.valid just_past_noon ∧
  (observable_state (run_operation pager_class (OpDispatch hi_call noon) idle_world)
   = observable_state
       (run_operation bare_class (OpDispatch bye_call just_past_noon) idle_world)
   ↔ noon = just_past_noon).
Proof.
  assert (V1 : dt_util.valid noon) by (unfold dt_util.valid; simpl; lia).
  assert (V2 : dt_util.valid just_past_noon) by (unfold dt_util.valid; simpl; lia).
  split; [exact V1 |]. split; [exact V2 |].
  exact (dispatch_states_identify_instants pager_class bare_class hi_call bye_call
           noon just_past_noon idle_world idle_world V1 V2).
Defined.

Lemma default_name_follows_device_class_witness :
  let self :=
    run_dc_ops set_attr_device_class [DcRead; DcSetAttr None]
      (new_entity None (Some (mk_description (Some MESSAGE_NOTIFIER)))) in
  fst (_default_to_device_class_name self) = false.
Proof.
  intros self.
  destruct (default_name_follows_device_class set_attr_device_class
              set_attr_device_class_description set_attr_device_class_invalidates
              self None (Some (mk_description (Some MESSAGE_NOTIFIER)))
              [DcRead; DcSetAttr None]) as (_ & _ & H & _).
  fold self in H. exact H.
Defined.

Lemma platform_schema_requires_platform_witness :
  "platform" ≠ "name" ∧
  PLATFORM_SCHEMA "platform" "name" config_flow.vol_str
    {[ "name" := VStr "printer" ]} = None ∧
  is_Some (PLATFORM_SCHEMA "platform" "name" config_flow.vol_str
             {[ "platform" := VStr "ender" ]}).
Proof.
  assert (N : "platform" ≠ "name") by discriminate.
  split; [exact N |]. split.
  - apply (platform_schema_requires_platform "platform" "name" config_flow.vol_str N).
    apply lookup_singleton_ne. discriminate.
  - apply (platform_schema_requires_platform "platform" "name" config_flow.vol_str N).
    split.
    + exists (VStr "ender"). split; [apply lookup_singleton_eq | simpl; eauto].
    + intros n Hn. rewrite lookup_singleton_ne in Hn by discriminate. discriminate.
Defined.


(** A whole step of the flow on the sample session: the form comes back
    after the socket has closed and one greeting has been sent. *)
Example step_user_sample :
  config_flow.async_step_user "host" string (fun step_id _ => step_id)
    sample_format config_flow.__init__
    (Some {[ "host" := VStr "printer.local" ]}) sample_session
  = (config_flow.mk_flow (Some (VStr "printer.local")),
     config_flow.StepReturned "user", ["Hello, Server!"]).
Proof. vm_compute. reflexivity. Qed.

Example device_classes_schema_upper :
  DEVICE_CLASSES_SCHEMA "Message_NOTIFIER" = Some MESSAGE_NOTIFIER ∧
  DEVICE_CLASSES_SCHEMA "notifier" = None.
Proof. split; reflexivity. Qed.
